(** * cmus_soundmenu: the status parser, the state diff, the MPRIS property
    mapper and the command dispatcher of [cmus_soundmenu.py]

    The script is Python 2 code ([from __future__ import unicode_literals],
    [sys.argv] entries are [.decode]d, the [python-*] packages of the
    docstring).  Every text value it handles is a [unicode] object.  A text
    is modelled by the byte string of its UTF-8 encoding, held in a Rocq
    [string]: ASCII characters are single bytes, so searching for [" "],
    ["/"], ["="], ["://"] or a prefix reads the same on the bytes as on the
    code points, and [uri.encode('utf-8')] is the list of the bytes.

    Dictionaries are [gmap string _]; a set of property names is a
    [gset string].  Exceptions are values of [exn]; code that can raise
    returns a [res]. Methods of [CmusSoundMenu] run in the monad [M]: they
    thread the object and return a value or the exception that escaped. *)

From Stdlib Require Import ZArith QArith Ascii String List Lia.
From stdpp Require Import base strings gmap pretty.

Open Scope string_scope.
Open Scope Z_scope.

(** ** Python values the model needs *)

Module Py.

Inductive exn : Type :=
| KeyError | ValueError | IndexError | TypeError | OverflowError.

Inductive res (A : Type) : Type :=
| Ret (a : A)
| Raise (e : exn).
Arguments Ret {A} a.
Arguments Raise {A} e.

Definition res_bind {A B : Type} (m : res A) (f : A -> res B) : res B :=
  match m with
  | Ret a => f a
  | Raise e => Raise e
  end.

#[global] Instance res_mret : MRet res := fun A a => Ret a.
#[global] Instance res_mbind : MBind res := fun A B f m => res_bind m f.

Definition raises {A : Type} (m : res A) : Prop := exists e, m = Raise e.

(** [d[key]] *)
Definition getitem {V : Type} (d : gmap string V) (key : string) : res V :=
  match d !! key with
  | Some v => Ret v
  | None => Raise KeyError
  end.

(** [s.startswith(p)] *)
Definition startswith (s p : string) : bool := String.prefix p s.

(** [sub in s] *)
Fixpoint str_in (sub s : string) : bool :=
  String.prefix sub s ||
  match s with
  | EmptyString => false
  | String _ rest => str_in sub rest
  end.

(** [c in s] for one character. *)
Fixpoint has_char (c : ascii) (s : string) : bool :=
  match s with
  | EmptyString => false
  | String d rest => Ascii.eqb d c || has_char c rest
  end.

(** [s.partition(sep)] without the separator: [None] when [sep] is absent. *)
Fixpoint partition_at (sep : ascii) (s : string) : option (string * string) :=
  match s with
  | EmptyString => None
  | String c rest =>
      if Ascii.eqb c sep then Some (EmptyString, rest)
      else match partition_at sep rest with
           | Some (a, b) => Some (String c a, b)
           | None => None
           end
  end.

(** [s.split(sep, 1)]: two pieces when [sep] occurs, the string itself
    otherwise. *)
Definition split1 (sep : ascii) (s : string) : list string :=
  match partition_at sep s with
  | Some (a, b) => [a; b]
  | None => [s]
  end.

(** [s.split(sep)] for a one-character separator. *)
Fixpoint split_from (sep : ascii) (cur s : string) : list string :=
  match s with
  | EmptyString => [cur]
  | String c rest =>
      if Ascii.eqb c sep then cur :: split_from sep EmptyString rest
      else split_from sep (cur +:+ String c EmptyString) rest
  end.

Definition split (sep : ascii) (s : string) : list string :=
  split_from sep EmptyString s.

(** [s.replace(old, new)] for one-character [old] and [new]. *)
Fixpoint replace (old new : ascii) (s : string) : string :=
  match s with
  | EmptyString => EmptyString
  | String c rest =>
      String (if Ascii.eqb c old then new else c) (replace old new rest)
  end.

(** Line boundaries of [unicode.splitlines]: LF, VT, FF, CR, FS, GS, RS as
    single bytes, CR LF as one boundary, and NEL (U+0085), LS (U+2028),
    PS (U+2029) by their UTF-8 encodings. *)
Definition is_linebreak (c : ascii) : bool :=
  let n := Z.of_N (N_of_ascii c) in
  (10 <=? n) && (n <=? 13) || (28 <=? n) && (n <=? 30).

Definition CRLF : string := String "013" (String "010" EmptyString).
Definition NEL : string := String "194" (String "133" EmptyString).
Definition LS : string := String "226" (String "128" (String "168" EmptyString)).
Definition PS : string := String "226" (String "128" (String "169" EmptyString)).

(** Number of bytes of the line boundary [s] starts with, [0] for none. *)
Definition linebreak_len (s : string) : nat :=
  if String.prefix CRLF s || String.prefix NEL s then 2%nat
  else if String.prefix LS s || String.prefix PS s then 3%nat
  else match s with
       | String c _ => if is_linebreak c then 1%nat else 0%nat
       | EmptyString => 0%nat
       end.

(** [splitlines_from skip cur s]: [skip] bytes of a boundary are still to be
    dropped, [cur] is the line read so far. A last line is reported only when
    it is not empty. *)
Fixpoint splitlines_from (skip : nat) (cur s : string) : list string :=
  match s with
  | EmptyString => if String.eqb cur EmptyString then [] else [cur]
  | String c rest =>
      match skip with
      | S k => splitlines_from k cur rest
      | O =>
          match linebreak_len s with
          | O => splitlines_from 0 (cur +:+ String c EmptyString) rest
          | S k => cur :: splitlines_from k EmptyString rest
          end
      end
  end.

(** [s.splitlines()] *)
Definition splitlines (s : string) : list string :=
  splitlines_from 0 EmptyString s.

(** [s.rfind(c)], [-1] when [c] does not occur. *)
Fixpoint rfind_from (i found : Z) (c : ascii) (s : string) : Z :=
  match s with
  | EmptyString => found
  | String d rest => rfind_from (i + 1) (if Ascii.eqb d c then i else found) c rest
  end.

Definition rfind (c : ascii) (s : string) : Z := rfind_from 0 (-1) c s.

(** [s[i:j]] for [0 <= i <= j]. *)
Definition slice (i j : Z) (s : string) : string :=
  String.substring (Z.to_nat i) (Z.to_nat (j - i)) s.

(** [os.path.basename(p)] of posixpath: what follows the last slash. *)
Definition basename (p : string) : string :=
  slice (rfind "/" p + 1) (Z.of_nat (String.length p)) p.

(** Some character of [s] differs from [c]. *)
Fixpoint has_other (c : ascii) (s : string) : bool :=
  match s with
  | EmptyString => false
  | String d rest => negb (Ascii.eqb d c) || has_other c rest
  end.

(** First component of [os.path.splitext(p)] of posixpath: the extension
    starts at the last dot, when that dot is after the last slash and some
    character other than a dot stands between the two. *)
Definition splitext_root (p : string) : string :=
  let sepIndex := rfind "/" p in
  let dotIndex := rfind "." p in
  if (sepIndex <? dotIndex) && has_other "." (slice (sepIndex + 1) dotIndex p)
  then slice 0 dotIndex p
  else p.

(** White space that [int] strips around the digits: tab, LF, VT, FF, CR
    and the space. *)
Definition is_space (c : ascii) : bool :=
  let n := Z.of_N (N_of_ascii c) in
  (9 <=? n) && (n <=? 13) || (n =? 32).

Fixpoint lstrip (s : string) : string :=
  match s with
  | EmptyString => EmptyString
  | String c rest => if is_space c then lstrip rest else s
  end.

Definition strip (s : string) : string :=
  String.rev (lstrip (String.rev (lstrip s))).

Definition digit_value (c : ascii) : option Z :=
  let n := Z.of_N (N_of_ascii c) in
  if (48 <=? n) && (n <=? 57) then Some (n - 48) else None.

Fixpoint digits_value (acc : Z) (s : string) : option Z :=
  match s with
  | EmptyString => Some acc
  | String c rest =>
      match digit_value c with
      | Some d => digits_value (10 * acc + d) rest
      | None => None
      end
  end.

Definition unsigned_value (s : string) : res Z :=
  match s with
  | EmptyString => Raise ValueError
  | _ => match digits_value 0 s with
         | Some n => Ret n
         | None => Raise ValueError
         end
  end.

(** [int(s)] for a text [s]: surrounding white space, an optional sign and
    ASCII decimal digits; anything else is a [ValueError].  (Python also
    reads the decimal digits and the white space of other scripts; the model
    raises on them, so a statement with [py_int s = Ret d] speaks of the
    texts both accept.) *)
Definition py_int (s : string) : res Z :=
  match strip s with
  | String "+" rest => unsigned_value rest
  | String "-" rest => n ← unsigned_value rest; Ret (- n)
  | t => unsigned_value t
  end.

(** [int(x)] for a finite float [x], held as the rational it denotes:
    truncation toward zero. *)
Definition int_of_float (x : Q) : Z := Z.quot (Qnum x) (Z.pos (Qden x)).

(** [fmt % args] for integer arguments, with the conversions the script
    uses: [%d], [%+d] and [%%].  A [%] that ends the format is a
    [ValueError] (incomplete format), a conversion with no argument left and
    an argument with no conversion left are [TypeError]s. *)
Fixpoint py_format (fmt : string) (args : list Z) : res string :=
  match fmt with
  | EmptyString =>
      match args with
      | [] => Ret EmptyString
      | _ :: _ => Raise TypeError
      end
  | String "%" EmptyString => Raise ValueError
  | String "%" (String "%" rest) =>
      s ← py_format rest args; Ret (String "%" s)
  | String "%" (String "d" rest) =>
      match args with
      | [] => Raise TypeError
      | n :: args' => s ← py_format rest args'; Ret (pretty n +:+ s)
      end
  | String "%" (String "+" (String "d" rest)) =>
      match args with
      | [] => Raise TypeError
      | n :: args' =>
          s ← py_format rest args';
          Ret ((if 0 <=? n then "+" else "") +:+ pretty n +:+ s)
      end
  | String "%" _ => Raise ValueError
  | String c rest => s ← py_format rest args; Ret (String c s)
  end.

(** [dbus.Int64(n)] and [dbus.Int32(n)]: the integer, or [OverflowError]
    outside the range of the type. *)
Definition dbus_Int64 (n : Z) : res Z :=
  if (- 2 ^ 63 <=? n) && (n <? 2 ^ 63) then Ret n else Raise OverflowError.

Definition dbus_Int32 (n : Z) : res Z :=
  if (- 2 ^ 31 <=? n) && (n <? 2 ^ 31) then Ret n else Raise OverflowError.

(** Python 2 orders an integer before any text: [n > s] is [False] for every
    integer [n] and every [unicode] (or [str]) object [s], whatever the
    digits in [s]. *)
Definition int_gt_text (n : Z) (s : string) : bool := false.

End Py.

(** ** [base64.b32encode] of the Python 2 standard library

    The input is cut into quanta of five bytes; a quantum is read as two
    16-bit numbers and one byte ([struct.unpack('!HHB', ...)]) and gives eight
    characters of [_b32tab].  A last, shorter quantum is filled with zero
    bytes and the characters that carry no input bit are overwritten by the
    padding character. *)

Module Base32.

Definition alphabet : string := "ABCDEFGHIJKLMNOPQRSTUVWXYZ234567".

(** [_b32tab[i]]; the character ["?"] stands for a failed lookup. *)
Definition _b32tab (i : Z) : ascii :=
  nth (Z.to_nat i) (list_ascii_of_string alphabet) "?"%char.

Definition quantum (b0 b1 b2 b3 b4 : Z) : string :=
  let c1 := b0 * 256 + b1 in
  let c2 := b2 * 256 + b3 in
  let c3 := b4 in
  let c2 := c2 + Z.shiftl (Z.land c1 1) 16 in
  let c3 := c3 + Z.shiftl (Z.land c2 3) 8 in
  string_of_list_ascii
    [ _b32tab (Z.shiftr c1 11);
      _b32tab (Z.land (Z.shiftr c1 6) 31);
      _b32tab (Z.land (Z.shiftr c1 1) 31);
      _b32tab (Z.shiftr c2 12);
      _b32tab (Z.land (Z.shiftr c2 7) 31);
      _b32tab (Z.land (Z.shiftr c2 2) 31);
      _b32tab (Z.shiftr c3 5);
      _b32tab (Z.land c3 31) ].

Fixpoint b32encode (s : list Z) : string :=
  match s with
  | [] => ""
  | [b0] => String.substring 0 2 (quantum b0 0 0 0 0) +:+ "======"
  | [b0; b1] => String.substring 0 4 (quantum b0 b1 0 0 0) +:+ "===="
  | [b0; b1; b2] => String.substring 0 5 (quantum b0 b1 b2 0 0) +:+ "==="
  | [b0; b1; b2; b3] => String.substring 0 7 (quantum b0 b1 b2 b3 0) +:+ "="
  | b0 :: b1 :: b2 :: b3 :: b4 :: rest =>
      quantum b0 b1 b2 b3 b4 +:+ b32encode rest
  end.

(** [uri.encode('utf-8')]: the bytes of the text. *)
Definition utf8_bytes (s : string) : list Z :=
  map (fun c => Z.of_N (N_of_ascii c)) (list_ascii_of_string s).

End Base32.

(** ** The object and its methods *)

Import Py.

(** A status dictionary: field name to text. *)
Abbreviation State := (gmap string string).

(** Values of [xesam:]/[mpris:] metadata entries. *)
Inductive meta_value : Type :=
| MStr (s : string)
| MInt (n : Z)
| MArr (l : list string).

(** Values the property getters return.  A float is held as the rational it
    is computed from. *)
Inductive value : Type :=
| VNone
| VStr (s : string)
| VBool (b : bool)
| VInt (n : Z)
| VFloat (x : Q)
| VDict (d : gmap string meta_value).

(** The [CmusSoundMenu] object once [__init__] has run, with what it sends
    out: [commands] are the [cmus-remote] invocations, [signals] the
    [PropertiesChanged] emissions, [notifications] the desktop notifications
    shown (header, body, image), each most recent first; [quit_scheduled]
    records [GObject.timeout_add(0, self.quit_script)]. *)
Record Obj : Type := mkObj {
  status : option State;
  properties : gmap string (gmap string value);
  commands : list string;
  signals : list (string * gmap string value);
  notifications : list (string * string * option string);
  quit_scheduled : bool
}.

Definition with_status (st : option State) (o : Obj) : Obj :=
  mkObj st (properties o) (commands o) (signals o) (notifications o)
        (quit_scheduled o).

Definition with_properties (p : gmap string (gmap string value)) (o : Obj) : Obj :=
  mkObj (status o) p (commands o) (signals o) (notifications o)
        (quit_scheduled o).

Definition M (A : Type) : Type := Obj -> Obj * res A.

Definition m_ret {A : Type} (a : A) : M A := fun o => (o, Ret a).

Definition m_bind {A B : Type} (m : M A) (f : A -> M B) : M B :=
  fun o =>
    match m o with
    | (o', Ret a) => f a o'
    | (o', Raise e) => (o', Raise e)
    end.

#[global] Instance M_mret : MRet M := @m_ret.
#[global] Instance M_mbind : MBind M := fun A B f m => m_bind m f.

(** A computation that cannot touch the object. *)
Definition lift {A : Type} (r : res A) : M A := fun o => (o, r).

Definition get_self : M Obj := fun o => (o, Ret o).

Definition update (f : Obj -> Obj) : M unit := fun o => (f o, Ret tt).

Definition DESKTOP_NAME : string := "cmus".
Definition NOTIFICATIONS_ENABLE : bool := true.
Definition COVER_IMAGE_ENABLE : bool := true.

Definition player_iface : string := "org.mpris.MediaPlayer2.Player".

(** *** Helpers for player interface properties *)

(** [encoded_uri]: Python 2's [str] of the encoded bytes is the bytes. *)
Definition encoded_uri (uri : string) : string :=
  replace "=" "_" (Base32.b32encode (Base32.utf8_bytes uri)).

Definition get_track_id (track_path : string) : string :=
  let track_id_name := encoded_uri track_path in
  let track_id_path := "/com/" +:+ DESKTOP_NAME +:+ "/track/" in
  track_id_path +:+ track_id_name.

Definition get_title (title file_name : string) : string :=
  if negb (String.eqb title "") then title
  else if negb (String.eqb file_name "") then
    if str_in "://" file_name then file_name
    else splitext_root (basename file_name)
  else "".

Definition get_url (file_name : string) : string :=
  if str_in "://" file_name then file_name else "file://" +:+ file_name.

(** *** Player interface properties *)

Definition get_PlaybackStatus (new_status : option State) : string :=
  match new_status with
  | Some st =>
      match st !! "status" with
      | Some "playing" => "Playing"
      | Some "paused" => "Paused"
      | Some "stopped" => "Stopped"
      | _ => "Stopped"
      end
  | None => "Stopped"
  end.

(** The third member of the tuple given to [all] is the text
    ['repeat_current'] itself, which is true: the test asks for [continue]
    and [repeat] only. *)
Definition get_LoopStatus (new_status : option State) : res string :=
  match new_status with
  | None => Ret ""
  | Some st =>
      if bool_decide (is_Some (st !! "continue"))
         && bool_decide (is_Some (st !! "repeat"))
         && negb (String.eqb "repeat_current" "")
      then
        cont ← getitem st "continue";
        if String.eqb cont "false" then Ret "None"
        else if String.eqb cont "true" then
          rc ← getitem st "repeat_current";
          if String.eqb rc "true" then Ret "Track"
          else
            r ← getitem st "repeat";
            if String.eqb r "true" then Ret "Playlist" else Ret "None"
        else Ret ""
      else Ret ""
  end.

(** The guard ['k' in new_status and new_status['k'] != '']. *)
Definition filled (st : State) (key : string) : option string :=
  match st !! key with
  | Some v => if String.eqb v "" then None else Some v
  | None => None
  end.

(** One [if 'k' in ... : metadata[name] = conv(new_status['k'])] step. *)
Definition put_field (st : State) (key name : string)
    (conv : string -> res meta_value) (metadata : gmap string meta_value)
  : res (gmap string meta_value) :=
  match filled st key with
  | Some v => x ← conv v; Ret (<[name := x]> metadata)
  | None => Ret metadata
  end.

Definition get_Metadata (new_status : option State) : res value :=
  match new_status with
  | None => Ret (VStr "")
  | Some st =>
      file ← getitem st "file";
      let metadata : gmap string meta_value :=
        {[ "mpris:trackid" := MStr (get_track_id file) ]} in
      metadata ← put_field st "duration" "mpris:length"
        (fun v => n ← py_int v; x ← dbus_Int64 (n * 1000); Ret (MInt x)) metadata;
      metadata ← put_field st "cover" "mpris:artUrl"
        (fun v => Ret (MStr (get_url v))) metadata;
      metadata ← put_field st "album" "xesam:album"
        (fun v => Ret (MStr v)) metadata;
      metadata ← put_field st "albumartist" "xesam:albumArtist"
        (fun v => Ret (MArr (split "/" v))) metadata;
      metadata ← put_field st "artist" "xesam:artist"
        (fun v => Ret (MArr (split "/" v))) metadata;
      metadata ← put_field st "comment" "xesam:comment"
        (fun v => Ret (MArr (split "010" v))) metadata;
      metadata ← put_field st "composer" "xesam:composer"
        (fun v => Ret (MArr (split "/" v))) metadata;
      metadata ← put_field st "date" "xesam:contentCreated"
        (fun v => Ret (MStr v)) metadata;
      metadata ← put_field st "discnumber" "xesam:discNumber"
        (fun v => n ← py_int v; Ret (MInt n)) metadata;
      metadata ← put_field st "genre" "xesam:genre"
        (fun v => Ret (MArr (split "/" v))) metadata;
      metadata ← put_field st "title" "xesam:title"
        (fun v => Ret (MStr v)) metadata;
      metadata ← put_field st "tracknumber" "xesam:trackNumber"
        (fun v => n ← py_int v; Ret (MInt n)) metadata;
      metadata ← put_field st "file" "xesam:url"
        (fun v => Ret (MStr (get_url v))) metadata;
      Ret (VDict metadata)
  end.

Definition get_Shuffle (new_status : option State) : bool :=
  match new_status with
  | None => false
  | Some st =>
      match st !! "shuffle" with
      | Some v => if (0 <? Z.of_nat (String.length v)) then negb (String.eqb v "") else false
      | None => false
      end
  end.

Definition get_Volume (new_status : option State) : res Q :=
  match new_status with
  | None => Ret 0%Q
  | Some st =>
      match st !! "vol_left", st !! "vol_right" with
      | Some l, Some r =>
          l ← py_int l;
          r ← py_int r;
          Ret (Qmake (l + r) 1 / 200)%Q
      | _, _ => Ret 0%Q
      end
  end.

(** *** Desktop notifications *)

Definition html_escape_table (c : ascii) : string :=
  if Ascii.eqb c "&" then "&amp;"
  else if Ascii.eqb c "034" then "&quot;"
  else if Ascii.eqb c "'" then "&#39;"
  else if Ascii.eqb c ">" then "&gt;"
  else if Ascii.eqb c "<" then "&lt;"
  else if Ascii.eqb c "/" then "&#47;"
  else String c "".

Fixpoint html_escape (message : string) : string :=
  match message with
  | EmptyString => EmptyString
  | String c rest => html_escape_table c +:+ html_escape rest
  end.

Definition notify (n : string * string * option string) (o : Obj) : Obj :=
  mkObj (status o) (properties o) (commands o) (signals o)
        (n :: notifications o) (quit_scheduled o).

(** The body runs under [try: ... except Exception], so nothing escapes: on
    [None] the first membership test fails and is caught. *)
Definition show_notification (new_status : option State) : M unit :=
  if negb NOTIFICATIONS_ENABLE then m_ret tt
  else match new_status with
       | None => m_ret tt
       | Some st =>
           let header := default "" (st !! "title") in
           let msg_artist := default "" (st !! "artist") in
           let msg_album := default "" (st !! "album") in
           let msg_image := st !! "cover" in
           let message :=
             html_escape (msg_artist +:+ String "010" "" +:+ msg_album) in
           if negb (String.eqb header "")
           then update (notify (header, message, msg_image))
           else m_ret tt
       end.

(** *** Status intake and the diff *)

Definition obligatory : list string :=
  [ "status"; "duration"; "continue"; "repeat"; "repeat_current";
    "shuffle"; "vol_left"; "vol_right" ].

Fixpoint foldM {A B : Type} (f : B -> A -> res B) (l : list A) (b : B)
  : res B :=
  match l with
  | [] => Ret b
  | a :: l' => b' ← f b a; foldM f l' b'
  end.

(** [new_status[key] = ''], or [new_status[key] = self.status[key]]. *)
Definition seed_field (old : option State) (new_status : State) (key : string)
  : res State :=
  match old with
  | None => Ret (<[key := ""]> new_status)
  | Some st => v ← getitem st key; Ret (<[key := v]> new_status)
  end.

(** [key, value = l] *)
Definition unpack2 (l : list string) : res (string * string) :=
  match l with
  | [a; b] => Ret (a, b)
  | _ => Raise ValueError
  end.

(** [l[i]] *)
Definition list_getitem (l : list string) (i : nat) : res string :=
  match l !! i with
  | Some x => Ret x
  | None => Raise IndexError
  end.

(** The body of [for line in raw_status.splitlines()]. *)
Definition read_line (new_status : State) (line : string) : res State :=
  '(key, value) ← unpack2 (split1 " " line);
  if String.eqb key "tag" || String.eqb key "set" then
    let value := split1 " " value in
    v1 ← list_getitem value 1;
    v0 ← list_getitem value 0;
    Ret (<[v0 := v1]> new_status)
  else Ret (<[key := value]> new_status).

Definition all_groups : gset string :=
  {[ "PlaybackStatus"; "LoopStatus"; "Shuffle"; "Metadata"; "Volume" ]}.

Definition status_dict : list (string * string) :=
  [ ("status", "PlaybackStatus");
    ("continue", "LoopStatus");
    ("repeat", "LoopStatus");
    ("repeat_current", "LoopStatus");
    ("shuffle", "Shuffle");
    ("vol_left", "Volume");
    ("vol_right", "Volume");
    ("artist", "Metadata");
    ("title", "Metadata");
    ("album", "Metadata") ].

(** The body of [for key in status_dict]. *)
Definition diff_step (old new_status : State) (changed : gset string)
    (entry : string * string) : gset string :=
  let '(key, group) := entry in
  match new_status !! key with
  | Some v =>
      match old !! key with
      | None => {[ group ]} ∪ changed
      | Some v0 =>
          if negb (String.eqb v0 v) then {[ group ]} ∪ changed else changed
      end
  | None => changed
  end.

(** The set [changed] that [_status_changed] computes, [old] being
    [self.status]. *)
Definition changed_groups (old new_status : option State) : gset string :=
  match new_status with
  | None => ∅
  | Some new_st =>
      match old with
      | None => all_groups
      | Some old_st => foldl (diff_step old_st new_st) ∅ status_dict
      end
  end.

Definition prop_dict (prop : string) : res (option State -> res value) :=
  if String.eqb prop "PlaybackStatus"
  then Ret (fun s => Ret (VStr (get_PlaybackStatus s)))
  else if String.eqb prop "LoopStatus"
  then Ret (fun s => v ← get_LoopStatus s; Ret (VStr v))
  else if String.eqb prop "Shuffle"
  then Ret (fun s => Ret (VBool (get_Shuffle s)))
  else if String.eqb prop "Metadata"
  then Ret get_Metadata
  else if String.eqb prop "Volume"
  then Ret (fun s => v ← get_Volume s; Ret (VFloat v))
  else Raise KeyError.

(** The body of [for prop in changed]. *)
Definition new_property (new_status : option State)
    (new_properties : gmap string value) (prop : string)
  : res (gmap string value) :=
  getter ← prop_dict prop;
  v ← getter new_status;
  Ret (<[prop := v]> new_properties).

Definition emit (s : string * gmap string value) (o : Obj) : Obj :=
  mkObj (status o) (properties o) (commands o) (s :: signals o)
        (notifications o) (quit_scheduled o).

(** The signal method: the body stores the changed values in the property
    table of the interface, then the decorator emits the signal. *)
Definition PropertiesChanged (interface : string)
    (changed_properties : gmap string value) : M unit :=
  self ← get_self;
  (if (0 <? size changed_properties)%nat then
     table ← lift (getitem (properties self) interface);
     update (with_properties
               (<[interface := changed_properties ∪ table]> (properties self)))
   else m_ret tt);;
  update (emit (interface, changed_properties)).

(** The property names are visited in the order of [elements]; the getters
    do not touch the object, so the order only decides which exception
    escapes when several getters raise. *)
Definition _status_changed (new_status : option State) : M unit :=
  self ← get_self;
  let changed := changed_groups (status self) new_status in
  if (0 <? size changed)%nat then
    (if bool_decide ("Metadata" ∈ changed)
     then show_notification new_status else m_ret tt);;
    new_properties ← lift (foldM (new_property new_status) (elements changed) ∅);
    PropertiesChanged player_iface new_properties
  else m_ret tt.

Section CmusSoundMenu.

(** The player: what [cmus-remote] writes to stdout and stderr for a command,
    given the commands run before it (most recent first). *)
Variable cmus_remote : list string -> string -> string * string.

(** The cover search of [get_cover] for a file path that is not empty
    ([get_embedded_cover], then [get_dir_cover], then the thumbnail written
    to the temporary file): the name of that file, or [None]. *)
Variable find_artwork : string -> option string.

Definition cmus_command (command : string) : M string :=
  fun o =>
    let '(stdout, stderr) := cmus_remote (commands o) command in
    (mkObj (status o) (properties o) (command :: commands o) (signals o)
           (notifications o)
           (if (0 <? String.length stderr)%nat then true else quit_scheduled o),
     Ret stdout).

Definition get_cover (new_status : option State) : option string :=
  if negb COVER_IMAGE_ENABLE then None
  else match new_status with
       | None => None
       | Some st =>
           match st !! "file" with
           | None => None
           | Some filepath =>
               if String.eqb filepath "" then None else find_artwork filepath
           end
       end.

(** The value of [new_status] that [set_status] computes from [self.status]
    and the raw text (the [if]/[else] that opens the method). *)
Definition parse_status (old : option State) (raw_status : string)
  : res (option State) :=
  if String.eqb raw_status "" || startswith raw_status "cmus-remote"
  then Ret None
  else
    let new_status : State := <["file" := ""]> (<["title" := ""]> ∅) in
    new_status ← foldM (seed_field old) obligatory new_status;
    new_status ← foldM read_line (splitlines raw_status) new_status;
    title ← getitem new_status "title";
    file ← getitem new_status "file";
    let new_status := <["title" := get_title title file]> new_status in
    match get_cover (Some new_status) with
    | Some cover => Ret (Some (<["cover" := cover]> new_status))
    | None => Ret (Some new_status)
    end.

Definition set_status (raw_status : string) : M unit :=
  self ← get_self;
  new_status ← lift (parse_status (status self) raw_status);
  match status self with
  | Some _ => _status_changed new_status
  | None => m_ret tt
  end;;
  update (with_status new_status).

Definition get_status : M unit :=
  raw ← cmus_command "-Q";
  set_status raw.

(** The guard ['position' in new_status and len(new_status['position']) > 0]. *)
Definition position_of (st : State) : option string :=
  match st !! "position" with
  | Some v => if (0 <? String.length v)%nat then Some v else None
  | None => None
  end.

(** After [self.get_status()] the name [new_status] is still bound to the
    dictionary the method was given; [set_status] builds a new dictionary
    and leaves that one as it was.  A method that falls off its end returns
    [None]. *)
Definition get_Position (new_status : option State) : M value :=
  match new_status with
  | None => m_ret (VStr "")
  | Some st =>
      match position_of st with
      | Some v => lift (n ← py_int v; x ← dbus_Int32 (n * 1000); Ret (VInt x))
      | None =>
          get_status;;
          match position_of st with
          | Some v => lift (n ← py_int v; Ret (VInt (n * 1000)))
          | None => m_ret VNone
          end
      end
  end.

(** *** Setting player interface properties, and [SetPosition] *)

(** [value] is the float of the property; [int(value)] is never [None]. *)
Definition set_Volume (value : Q) : M unit :=
  self ← get_self;
  match status self with
  | None => m_ret tt
  | Some _ =>
      let value := int_of_float value in
      if value <? 0 then cmus_command "-v 0%";; m_ret tt
      else if 1 <? value then cmus_command "-v 100%";; m_ret tt
      else if (0 <=? value) && (value <=? 1) then
        command ← lift (py_format "-v %d%" [value]);
        cmus_command command;; m_ret tt
      else m_ret tt
  end.

Definition SetPosition (track_id : string) (position : Z) : M unit :=
  let position := position `div` 1000 in
  self ← get_self;
  match status self with
  | None => m_ret tt
  | Some st =>
      file ← lift (getitem st "file");
      if negb (String.eqb track_id (get_track_id file)) then m_ret tt
      else if position <? 0 then m_ret tt
      else
        duration ← lift (getitem st "duration");
        if int_gt_text position duration then m_ret tt
        else
          command ← lift (py_format "-k %d" [position]);
          cmus_command command;; m_ret tt
  end.

End CmusSoundMenu.

(** ** Predicates and sample inputs used by the statements below *)

(** The characters D-Bus allows in an object path element. *)
Definition uri_safe (c : ascii) : bool :=
  let n := Z.of_N (N_of_ascii c) in
  (65 <=? n) && (n <=? 90) || (97 <=? n) && (n <=? 122)
  || (48 <=? n) && (n <=? 57) || (n =? 95).

(** The characters of the Base32 alphabet, and those with the padding. *)
Definition b32_char (c : ascii) : bool := has_char c Base32.alphabet.

Definition b32_or_pad (c : ascii) : bool := b32_char c || Ascii.eqb c "=".

Fixpoint all_chars (P : ascii -> bool) (s : string) : bool :=
  match s with
  | EmptyString => true
  | String c rest => P c && all_chars P rest
  end.

Module Samples.

Definition nl : string := String "010" "".

(** A player that answers nothing, and one that answers every query with
    the same block, which has a position. *)
Definition silent : list string -> string -> string * string :=
  fun _ _ => ("", "").

Definition no_art : string -> option string := fun _ => None.

Definition block : string :=
  "status playing" +:+ nl +:+ "duration 200" +:+ nl +:+
  "tag title Song" +:+ nl +:+ "tag artist A/B" +:+ nl +:+
  "file /x/song.mp3" +:+ nl +:+
  "set vol_left 50" +:+ nl +:+ "set vol_right 50" +:+ nl +:+
  "set continue true" +:+ nl +:+ "set repeat false" +:+ nl +:+
  "set repeat_current false" +:+ nl +:+ "set shuffle true".

Definition playing : list string -> string -> string * string :=
  fun _ command =>
    if String.eqb command "-Q" then (block +:+ nl +:+ "position 10", "")
    else ("", "").

(** The state [block] parses to. *)
Definition song : State :=
  {[ "status" := "playing"; "duration" := "200"; "title" := "Song";
     "artist" := "A/B"; "file" := "/x/song.mp3";
     "vol_left" := "50"; "vol_right" := "50";
     "continue" := "true"; "repeat" := "false";
     "repeat_current" := "false"; "shuffle" := "true" ]}.

(** The object before its first status, and with [song] as its status. *)
Definition fresh : Obj :=
  mkObj None {[ player_iface := ∅ ]} [] [] [] false.

Definition running : Obj :=
  mkObj (Some song) {[ player_iface := ∅ ]} [] [] [] false.

(** The state the block [status playing] parses to when nothing is known. *)
Definition bare : State :=
  {[ "status" := "playing"; "duration" := ""; "continue" := "";
     "repeat" := ""; "repeat_current" := ""; "shuffle" := "";
     "vol_left" := ""; "vol_right" := ""; "title" := ""; "file" := "" ]}.

Definition garbled : string :=
  "status playing" +:+ nl +:+ "garbage" +:+ nl +:+ "duration 200".

End Samples.

(** ** Further methods, and what the statements about them use *)

(** The field and the value a line of a status block stores, as [read_line]
    reads it; [None] for a line it cannot read. *)
Definition line_entry (line : string) : option (string * string) :=
  match split1 " " line with
  | [key; value] =>
      if String.eqb key "tag" || String.eqb key "set" then
        match split1 " " value with
        | [k; v] => Some (k, v)
        | _ => None
        end
      else Some (key, value)
  | _ => None
  end.

(** The fields every stored status has. *)
Definition status_fields : list string := "title" :: "file" :: obligatory.

Definition has_status_fields (st : State) : Prop :=
  Forall (fun k => is_Some (st !! k)) status_fields.

(** The stored status is [None] or has these fields. *)
Definition status_ok (o : Obj) : Prop :=
  match status o with
  | Some st => has_status_fields st
  | None => True
  end.

(** [sep.join(l)] for a one-character separator. *)
Fixpoint join (sep : ascii) (l : list string) : string :=
  match l with
  | [] => ""
  | [s] => s
  | s :: rest => s +:+ String sep (join sep rest)
  end.

(** The [if 'k' in new_status ...] steps of [get_Metadata], in its order:
    the field read, the entry written and the conversion applied. *)
Definition metadata_fields : list (string * string * (string -> res meta_value)) :=
  [ ("duration", "mpris:length",
     fun v => n ← py_int v; x ← dbus_Int64 (n * 1000); Ret (MInt x));
    ("cover", "mpris:artUrl", fun v => Ret (MStr (get_url v)));
    ("album", "xesam:album", fun v => Ret (MStr v));
    ("albumartist", "xesam:albumArtist", fun v => Ret (MArr (split "/" v)));
    ("artist", "xesam:artist", fun v => Ret (MArr (split "/" v)));
    ("comment", "xesam:comment", fun v => Ret (MArr (split "010" v)));
    ("composer", "xesam:composer", fun v => Ret (MArr (split "/" v)));
    ("date", "xesam:contentCreated", fun v => Ret (MStr v));
    ("discnumber", "xesam:discNumber", fun v => n ← py_int v; Ret (MInt n));
    ("genre", "xesam:genre", fun v => Ret (MArr (split "/" v)));
    ("title", "xesam:title", fun v => Ret (MStr v));
    ("tracknumber", "xesam:trackNumber", fun v => n ← py_int v; Ret (MInt n));
    ("file", "xesam:url", fun v => Ret (MStr (get_url v))) ].

Definition metadata_step (st : State) (metadata : gmap string meta_value)
    (field : string * string * (string -> res meta_value))
  : res (gmap string meta_value) :=
  put_field st field.1.1 field.1.2 field.2 metadata.

(** Position of a character in the Base32 alphabet (32 when it is not in
    it), and the eight table positions a quantum of five bytes is written
    with. *)
Fixpoint index_in (c : ascii) (s : string) : Z :=
  match s with
  | EmptyString => 0
  | String d rest => if Ascii.eqb d c then 0 else 1 + index_in c rest
  end.

Definition b32_index (c : ascii) : Z := index_in c Base32.alphabet.

Definition quantum_indices (b0 b1 b2 b3 b4 : Z) : list Z :=
  let c1 := b0 * 256 + b1 in
  let c2 := b2 * 256 + b3 + Z.shiftl (Z.land c1 1) 16 in
  let c3 := b4 + Z.shiftl (Z.land c2 3) 8 in
  [ Z.shiftr c1 11; Z.land (Z.shiftr c1 6) 31; Z.land (Z.shiftr c1 1) 31;
    Z.shiftr c2 12; Z.land (Z.shiftr c2 7) 31; Z.land (Z.shiftr c2 2) 31;
    Z.shiftr c3 5; Z.land c3 31 ].

(** The characters [html_escape_table] replaces, the ampersand apart. *)
Definition markup_char (c : ascii) : bool :=
  Ascii.eqb c "034" || Ascii.eqb c "'" || Ascii.eqb c ">" || Ascii.eqb c "<"
  || Ascii.eqb c "/".

(** [Get] of the properties interface: [self.properties[interface][prop]]. *)
Definition Get (interface prop : string) : M value :=
  self ← get_self;
  table ← lift (getitem (properties self) interface);
  lift (getitem table prop).

Section Methods.

Variable cmus_remote : list string -> string -> string * string.
Variable find_artwork : string -> option string.

(** [SetStatus], the entry point another instance of the script calls. *)
Definition SetStatus (arg : string) : M unit :=
  if (0 <? String.length arg)%nat then set_status find_artwork arg
  else m_ret tt.

Definition PlayPause : M unit :=
  self ← get_self;
  let playback_value :=
    match status self with
    | Some st => default "stopped" (st !! "status")
    | None => "stopped"
    end in
  if String.eqb playback_value "paused" || String.eqb playback_value "stopped"
  then cmus_command cmus_remote "-p";; m_ret tt
  else if String.eqb playback_value "playing"
  then cmus_command cmus_remote "-u";; m_ret tt
  else m_ret tt.


End Methods.

Module MoreSamples.

(** What [status paused / status stopped] parses to after [Samples.song]:
    the obligatory fields are carried over, [title] and [file] start empty
    again, [artist] is gone. *)
Definition stopped : State :=
  {[ "status" := "stopped"; "duration" := "200"; "title" := ""; "file" := "";
     "vol_left" := "50"; "vol_right" := "50";
     "continue" := "true"; "repeat" := "false";
     "repeat_current" := "false"; "shuffle" := "true" ]}.

Definition two_status_lines : string :=
  "status paused" +:+ Samples.nl +:+ "status stopped".

(** Another file with the tags of [Samples.song]. *)
Definition same_tags : string :=
  "tag title Song" +:+ Samples.nl +:+ "tag artist A/B" +:+ Samples.nl +:+
  "file /y/other.ogg" +:+ Samples.nl +:+ "duration 300".

Definition other_file : State :=
  <["duration" := "300"]> (<["file" := "/y/other.ogg"]> Samples.song).

(** A status whose left volume is no number, after [Samples.song]. *)
Definition bad_volume_lines : string :=
  "status playing" +:+ Samples.nl +:+ "set vol_left half".

Definition bad_volume : State :=
  <["vol_left" := "half"]> (<["status" := "playing"]> stopped).

End MoreSamples.

(** ** The cover search in the directory of the file *)

(** [s.lower()], on the letters A to Z.  Python lowers the letters of other
    scripts as well; the keywords and extensions compared below are made of
    ASCII letters that no other letter is lowered to, so the comparisons are
    the same. *)
Definition lower_char (c : ascii) : ascii :=
  let n := N_of_ascii c in
  if (65 <=? n)%N && (n <=? 90)%N then ascii_of_N (n + 32) else c.

Fixpoint lower (s : string) : string :=
  match s with
  | EmptyString => EmptyString
  | String c rest => String (lower_char c) (lower rest)
  end.

(** [s.endswith(suffix)] *)
Definition endswith (s suffix : string) : bool :=
  String.prefix (String.rev suffix) (String.rev s).

Definition cover_names : list string :=
  ["cover"; "front"; "bground"; "folder"; "albumart"].

Definition file_extensions : list string := [".jpg"; ".jpeg"; ".png"].

(** [x.lower().endswith(file_extensions)] *)
Definition is_image (x : string) : bool :=
  existsb (endswith (lower x)) file_extensions.

(** [x.lower().startswith(names)] for a tuple of names. *)
Definition starts_with_any (names : list string) (x : string) : bool :=
  existsb (startswith (lower x)) names.

(** [[x.lower().startswith(i) for i in names].index(True)]; [None] stands
    for the [ValueError] of a list without [True]. *)
Fixpoint rank (names : list string) (x : string) : option nat :=
  match names with
  | [] => None
  | name :: rest =>
      if startswith (lower x) name then Some 0%nat
      else match rank rest x with
           | Some k => Some (S k)
           | None => None
           end
  end.

(** [list.sort(key=...)] on entries paired with their keys: a stable
    insertion sort. *)
Fixpoint insert_ranked (e : nat * string) (l : list (nat * string))
  : list (nat * string) :=
  match l with
  | [] => [e]
  | e' :: rest =>
      if (e.1 <=? e'.1)%nat then e :: l else e' :: insert_ranked e rest
  end.

Fixpoint sort_ranked (l : list (nat * string)) : list (nat * string) :=
  match l with
  | [] => []
  | e :: rest => insert_ranked e (sort_ranked rest)
  end.

(** A list of ranked entries in ascending order of the keys. *)
Fixpoint ranked_sorted (l : list (nat * string)) : Prop :=
  match l with
  | [] => True
  | e :: rest => Forall (fun b => (e.1 <= b.1)%nat) rest /\ ranked_sorted rest
  end.

(** The keys of all entries, computed before the entries are moved. *)
Fixpoint with_ranks (names : list string) (l : list string)
  : option (list (nat * string)) :=
  match l with
  | [] => Some []
  | x :: rest =>
      match rank names x, with_ranks names rest with
      | Some k, Some ranked => Some ((k, x) :: ranked)
      | _, _ => None
      end
  end.

(** [os.path.join(a, b)] of posixpath for two components. *)
Definition path_join (a b : string) : string :=
  if startswith b "/" then b
  else if String.eqb a "" || endswith a "/" then a +:+ b
  else a +:+ "/" +:+ b.

Section Covers.

(** The file system: [os.path.dirname(os.path.abspath(p))], the entries
    [os.listdir] returns ([None] when it raises) and [os.path.exists]. *)
Variable dir_of : string -> string.
Variable listdir : string -> option (list string).
Variable path_exists : string -> bool.

(** The [for coverfile in coverfiles] loop. *)
Fixpoint first_existing (dirpath : string) (coverfiles : list string)
  : option string :=
  match coverfiles with
  | [] => None
  | coverfile :: rest =>
      let coverpath := path_join dirpath coverfile in
      if path_exists coverpath then Some coverpath
      else first_existing dirpath rest
  end.

(** [get_dir_cover] from the listing on. *)
Definition choose_cover (dirpath : string) (coverfiles : list string)
  : option string :=
  let coverfiles := filter (fun x => is_image x = true) coverfiles in
  let names :=
    if (length coverfiles =? 1)%nat then [""] else cover_names in
  let coverfiles :=
    filter (fun x => starts_with_any names x = true) coverfiles in
  match with_ranks names coverfiles with
  | Some ranked => first_existing dirpath (sort_ranked ranked).*2
  | None => None
  end.

(** The directory that is listed. *)
Definition cover_dir (filepath : string) : string :=
  let filepath :=
    if startswith filepath "cue:///"
    then dir_of (String.substring 6 (String.length filepath - 6) filepath)
    else filepath in
  dir_of filepath.

(** Every exception inside the method is caught and gives [None]. *)
Definition get_dir_cover (filepath : string) : option string :=
  if startswith filepath "http://" then None
  else
    let dirpath := cover_dir filepath in
    match listdir dirpath with
    | Some coverfiles => choose_cover dirpath coverfiles
    | None => None
    end.

End Covers.

Module CoverSamples.

Definition album_dir (_ : string) : string := "/music/album".

Definition album_listing (_ : string) : option (list string) :=
  Some ["01.ogg"; "art.PNG"; "notes.txt"].

Definition all_exist (_ : string) : bool := true.

End CoverSamples.

(** Unfolding of the exception monad in a goal. *)
Ltac res_simpl :=
  unfold mbind, mret, res_mbind, res_mret, res_bind, getitem in *.

(** * Properties *)

(** ** Sanity checks of the Python model *)

Example splitlines_sample :
  splitlines ("a b" +:+ CRLF +:+ String "010" "c" +:+ String "010" "")
  = ["a b"; ""; "c"].
Proof. reflexivity. Qed.

Example split1_sample : split1 " " "tag artist A B" = ["tag"; "artist A B"].
Proof. reflexivity. Qed.

Example splitext_sample :
  map splitext_root ["song.mp3"; ".bashrc"; "a.b/c"; "x..y"; "..y"]
  = ["song"; ".bashrc"; "a.b/c"; "x."; "..y"].
Proof. reflexivity. Qed.

Example basename_sample :
  map basename ["/x/song.mp3"; "song"; "a/"] = ["song.mp3"; "song"; ""].
Proof. reflexivity. Qed.

Example py_int_sample :
  map py_int [" 42 "; "-7"; ""; "1/2"; "+3"]
  = [Ret 42; Ret (-7); Raise ValueError; Raise ValueError; Ret 3].
Proof. reflexivity. Qed.

Example py_format_sample :
  (py_format "-k %d" [12], py_format "-v %d%" [1], py_format "-k %+d" [5])
  = (Ret "-k 12", Raise ValueError, Ret "-k +5").
Proof. reflexivity. Qed.

Example b32encode_sample :
  map (fun s => Base32.b32encode (Base32.utf8_bytes s))
      ["abc"; "hello"; "/x/song.mp3"; "f"; "fo"; "foob"]
  = ["MFRGG==="; "NBSWY3DP"; "F54C643PNZTS43LQGM======"; "MY======";
     "MZXQ===="; "MZXW6YQ="].
Proof. vm_compute. reflexivity. Qed.

Example parse_block_sample :
  parse_status Samples.no_art None Samples.block = Ret (Some Samples.song).
Proof. reflexivity. Qed.

(** ** Helper lemmas *)

Lemma res_bind_ret {A B : Type} (a : A) (f : A -> res B) :
  res_bind (Ret a) f = f a.
Proof. reflexivity. Qed.

Lemma res_bind_raise {A B : Type} (e : exn) (f : A -> res B) :
  res_bind (Raise e) f = Raise e.
Proof. reflexivity. Qed.

(** ** The diff *)

Lemma eqb_false_iff (a b : string) : negb (String.eqb a b) = true <-> a <> b.
Proof.
  rewrite negb_true_iff. split.
  - intros H ->. rewrite String.eqb_refl in H. discriminate.
  - intros H. destruct (String.eqb_spec a b); congruence.
Qed.

Lemma diff_step_elem (old new_st : State) (acc : gset string)
    (entry : string * string) (group : string) :
  group ∈ diff_step old new_st acc entry <->
  group ∈ acc \/
  (entry.2 = group /\
   exists v, new_st !! entry.1 = Some v /\ old !! entry.1 <> Some v).
Proof.
  destruct entry as [key g]. unfold diff_step. simpl.
  destruct (new_st !! key) as [v|] eqn:Hn.
  - destruct (old !! key) as [v0|] eqn:Ho.
    + destruct (negb (String.eqb v0 v)) eqn:Hb.
      * apply eqb_false_iff in Hb. rewrite elem_of_union, elem_of_singleton.
        split.
        -- intros [-> | H]; [right | left; exact H].
           split; [reflexivity|]. exists v. split; congruence.
        -- intros [H | [<- _]]; auto.
      * apply negb_false_iff, String.eqb_eq in Hb. subst v0. split.
        -- auto.
        -- intros [H | [_ (w & Hw & Hne)]]; [exact H|]. congruence.
    + rewrite elem_of_union, elem_of_singleton. split.
      * intros [-> | H]; [right | left; exact H].
        split; [reflexivity|]. exists v. split; congruence.
      * intros [H | [<- _]]; auto.
  - split; [auto|]. intros [H | [_ (w & Hw & _)]]; [exact H | discriminate].
Qed.

Lemma diff_fold_elem (old new_st : State) (d : list (string * string))
    (acc : gset string) (group : string) :
  group ∈ foldl (diff_step old new_st) acc d <->
  group ∈ acc \/
  exists key v, (key, group) ∈ d /\ new_st !! key = Some v /\ old !! key <> Some v.
Proof.
  revert acc. induction d as [|entry d IH]; intros acc; simpl.
  - split; [auto|]. intros [H | (key & v & H & _)]; [exact H|].
    apply elem_of_nil in H. destruct H.
  - rewrite IH, diff_step_elem. split.
    + intros [[H | [Hg (v & Hn & Ho)]] | (key & v & Hin & Hn & Ho)].
      * left; exact H.
      * right. exists entry.1, v. split; [|auto].
        destruct entry; simpl in *; subst. apply elem_of_cons; auto.
      * right. exists key, v. split; [|auto]. apply elem_of_cons; auto.
    + intros [H | (key & v & Hin & Hn & Ho)]; [auto|].
      apply elem_of_cons in Hin. destruct Hin as [<- | Hin].
      * left. right. simpl. eauto.
      * right. eauto.
Qed.

(** C10. The diff of two states holds a group exactly when some field mapped
    to it is present in the next state with a value the previous state does
    not have for it.  A field of the previous state that the next state lacks
    plays no part: when every field of the next state has the value it had
    before, and in particular when the next state is the previous one with a
    field removed, the diff is empty. *)
Theorem diff_reads_next_fields_only (old new_st : State) (group key : string) :
  (group ∈ changed_groups (Some old) (Some new_st) <->
   exists k v, (k, group) ∈ status_dict /\
               new_st !! k = Some v /\ old !! k <> Some v)
  /\ ((forall k v, new_st !! k = Some v -> old !! k = Some v) ->
      changed_groups (Some old) (Some new_st) = ∅)
  /\ changed_groups (Some old) (Some (delete key old)) = ∅.
Proof.
  assert (Hiff : forall o n g,
    g ∈ changed_groups (Some o) (Some n) <->
    exists k v, (k, g) ∈ status_dict /\ n !! k = Some v /\ o !! k <> Some v).
  { intros o n g. unfold changed_groups. rewrite diff_fold_elem. split.
    - intros [H | H]; [|exact H]. apply not_elem_of_empty in H. destruct H.
    - auto. }
  assert (Hsub : forall o n,
    (forall k v, n !! k = Some v -> o !! k = Some v) ->
    changed_groups (Some o) (Some n) = ∅).
  { intros o n H. apply leibniz_equiv. apply elem_of_equiv_empty. intros g Hg.
    apply Hiff in Hg. destruct Hg as (k & v & _ & Hn & Ho). auto. }
  split; [apply Hiff|]. split; [apply Hsub|].
  apply Hsub. intros k v Hk. apply lookup_delete_Some in Hk. tauto.
Qed.

Lemma diff_reads_next_fields_only_witness :
  changed_groups (Some Samples.song) (Some (delete "artist" Samples.song)) = ∅.
Proof.
  exact (proj2 (proj2 (diff_reads_next_fields_only
                         Samples.song Samples.song "Metadata" "artist"))).
Defined.

Example diff_title_only :
  changed_groups (Some Samples.song) (Some (<["title" := "Other"]> Samples.song))
  = {[ "Metadata" ]}.
Proof. reflexivity. Qed.

(** ** The property mapper *)

Lemma eqb_neq (a b : string) : a <> b -> String.eqb a b = false.
Proof. intros H. destruct (String.eqb_spec a b); congruence. Qed.

(** C4 as amended. [get_LoopStatus] answers the empty text for no state and
    for a state that lacks [continue] or [repeat].  When the three fields
    are present it answers by [continue]: "None" for false; for true,
    "Track" when [repeat_current] is true, else "Playlist" when [repeat] is
    true, else "None"; and the empty text when [continue] is neither true
    nor false. *)
Theorem get_LoopStatus_cases :
  get_LoopStatus None = Ret ""
  /\ (forall st : State,
        st !! "continue" = None \/ st !! "repeat" = None ->
        get_LoopStatus (Some st) = Ret "")
  /\ (forall (st : State) (c r rc : string),
        st !! "continue" = Some c -> st !! "repeat" = Some r ->
        st !! "repeat_current" = Some rc ->
        (c = "false" -> get_LoopStatus (Some st) = Ret "None")
        /\ (c = "true" -> rc = "true" -> get_LoopStatus (Some st) = Ret "Track")
        /\ (c = "true" -> rc <> "true" -> r = "true" ->
            get_LoopStatus (Some st) = Ret "Playlist")
        /\ (c = "true" -> rc <> "true" -> r <> "true" ->
            get_LoopStatus (Some st) = Ret "None")
        /\ (c <> "true" -> c <> "false" -> get_LoopStatus (Some st) = Ret "")).
Proof.
  split; [reflexivity|]. split.
  - intros st [H | H]; unfold get_LoopStatus; rewrite H; simpl.
    + reflexivity.
    + rewrite andb_false_r. reflexivity.
  - intros st c r rc Hc Hr Hrc. unfold get_LoopStatus. res_simpl.
    rewrite Hc, Hr, Hrc. simpl.
    repeat split.
    + intros ->. reflexivity.
    + intros -> ->. reflexivity.
    + intros -> Hn ->. rewrite (eqb_neq _ _ Hn). reflexivity.
    + intros -> Hn Hn'. rewrite (eqb_neq _ _ Hn), (eqb_neq _ _ Hn'). reflexivity.
    + intros Hn Hn'. rewrite (eqb_neq _ _ Hn), (eqb_neq _ _ Hn'). reflexivity.
Qed.

Lemma get_LoopStatus_cases_witness :
  get_LoopStatus (Some Samples.song) = Ret "None".
Proof.
  refine (proj1 (proj2 (proj2 (proj2
    (proj2 (proj2 get_LoopStatus_cases) Samples.song "true" "false" "false"
       _ _ _)))) _ _ _); first [reflexivity | discriminate].
Defined.

(** C4, as stated, fails.  With the three fields present and [continue]
    neither true nor false (the empty text a first parse seeds) the answer is
    the empty text, not "None"; and with [repeat_current] missing the answer
    is not the empty text: "None" when [continue] is false, a [KeyError]
    when it is true. *)
Lemma get_LoopStatus_counterexample :
  let seeded : State :=
    {[ "continue" := ""; "repeat" := "true"; "repeat_current" := "false" ]} in
  let partial_off : State := {[ "continue" := "false"; "repeat" := "true" ]} in
  let partial_on : State := {[ "continue" := "true"; "repeat" := "true" ]} in
  (seeded !! "continue" = Some "" /\ seeded !! "repeat" = Some "true" /\
   seeded !! "repeat_current" = Some "false" /\
   get_LoopStatus (Some seeded) = Ret "" /\
   get_LoopStatus (Some seeded) <> Ret "None")
  /\ (partial_off !! "repeat_current" = None /\
      get_LoopStatus (Some partial_off) = Ret "None" /\
      get_LoopStatus (Some partial_off) <> Ret "")
  /\ (partial_on !! "repeat_current" = None /\
      get_LoopStatus (Some partial_on) = Raise KeyError /\
      get_LoopStatus (Some partial_on) <> Ret "").
Proof.
  cbv zeta. repeat apply conj; try reflexivity.
  - change (@Ret string "" <> Ret "None"). discriminate.
  - change (@Ret string "None" <> Ret ""). discriminate.
  - change (@Raise string KeyError <> Ret ""). discriminate.
Qed.

(** ** The status parser *)

(** C3. With no previous state the block [status playing] parses to a state
    whose fields are exactly the ten obligatory ones, [status] bound to
    "playing" and every other one to the empty text, whatever the cover
    search would find. *)
Theorem parse_status_playing_only (find_artwork : string -> option string) :
  exists st : State,
    parse_status find_artwork None "status playing" = Ret (Some st)
    /\ st = Samples.bare
    /\ st !! "status" = Some "playing"
    /\ Forall (fun key => st !! key = Some "")
         ["duration"; "continue"; "repeat"; "repeat_current"; "shuffle";
          "vol_left"; "vol_right"; "title"; "file"]
    /\ dom st = list_to_set
         ["status"; "duration"; "continue"; "repeat"; "repeat_current";
          "shuffle"; "vol_left"; "vol_right"; "title"; "file"].
Proof.
  exists Samples.bare. repeat apply conj; try reflexivity.
  repeat constructor.
Qed.

(** ** Track identifiers *)

Lemma all_chars_app (P : ascii -> bool) (s t : string) :
  all_chars P (s +:+ t) = all_chars P s && all_chars P t.
Proof.
  induction s as [|c s IH]; simpl; [reflexivity|].
  rewrite IH, andb_assoc. reflexivity.
Qed.

Lemma all_chars_substring (P : ascii -> bool) (n : nat) (s : string) :
  all_chars P s = true -> all_chars P (String.substring 0 n s) = true.
Proof.
  revert s. induction n as [|n IH]; intros [|c s]; simpl; try reflexivity.
  intros H. apply andb_true_iff in H as [Hc Hs].
  rewrite Hc. simpl. apply IH, Hs.
Qed.

Lemma b32tab_char (i : Z) : 0 <= i < 32 -> b32_char (Base32._b32tab i) = true.
Proof.
  intros Hi. unfold Base32._b32tab.
  assert (Hall : forallb b32_char (list_ascii_of_string Base32.alphabet) = true)
    by (vm_compute; reflexivity).
  rewrite forallb_forall in Hall. apply Hall. apply nth_In.
  change (length (list_ascii_of_string Base32.alphabet)) with 32%nat. lia.
Qed.

Lemma land_31 (x : Z) : 0 <= Z.land x 31 < 32.
Proof.
  change 31 with (Z.ones 5). rewrite Z.land_ones by lia.
  apply Z.mod_pos_bound. reflexivity.
Qed.

Lemma quantum_chars (b0 b1 b2 b3 b4 : Z) :
  0 <= b0 < 256 -> 0 <= b1 < 256 -> 0 <= b2 < 256 -> 0 <= b3 < 256 ->
  0 <= b4 < 256 ->
  all_chars b32_char (Base32.quantum b0 b1 b2 b3 b4) = true.
Proof.
  intros H0 H1 H2 H3 H4. unfold Base32.quantum.
  assert (Hk1 : 0 <= Z.shiftl (Z.land (b0 * 256 + b1) 1) 16 <= 65536).
  { change 1 with (Z.ones 1) at 1 2. rewrite Z.land_ones, Z.shiftl_mul_pow2 by lia.
    pose proof (Z.mod_pos_bound (b0 * 256 + b1) (2 ^ 1) eq_refl).
    change (2 ^ 1) with 2 in *. change (2 ^ 16) with 65536. lia. }
  set (k1 := Z.shiftl (Z.land (b0 * 256 + b1) 1) 16) in *.
  assert (Hk2 : 0 <= Z.shiftl (Z.land (b2 * 256 + b3 + k1) 3) 8 <= 768).
  { change 3 with (Z.ones 2). rewrite Z.land_ones, Z.shiftl_mul_pow2 by lia.
    pose proof (Z.mod_pos_bound (b2 * 256 + b3 + k1) (2 ^ 2) eq_refl).
    change (2 ^ 2) with 4 in *. change (2 ^ 8) with 256. lia. }
  set (k2 := Z.shiftl (Z.land (b2 * 256 + b3 + k1) 3) 8) in *.
  cbn [string_of_list_ascii all_chars].
  rewrite !b32tab_char; try reflexivity; try apply land_31;
    rewrite Z.shiftr_div_pow2 by lia.
  - change (2 ^ 5) with 32. split; [apply Z.div_pos | apply Z.div_lt_upper_bound]; lia.
  - change (2 ^ 12) with 4096. split; [apply Z.div_pos | apply Z.div_lt_upper_bound]; lia.
  - change (2 ^ 11) with 2048. split; [apply Z.div_pos | apply Z.div_lt_upper_bound]; lia.
Qed.

Lemma b32_char_or_pad (s : string) :
  all_chars b32_char s = true -> all_chars b32_or_pad s = true.
Proof.
  induction s as [|c s IH]; simpl; [reflexivity|].
  intros H. apply andb_true_iff in H as [Hc Hs].
  unfold b32_or_pad at 1. rewrite Hc, IH by exact Hs. reflexivity.
Qed.

Lemma b32encode_chars (s : list Z) :
  Forall (fun b => 0 <= b < 256) s ->
  all_chars b32_or_pad (Base32.b32encode s) = true.
Proof.
  remember (length s) as n eqn:Hn. revert s Hn.
  induction n as [n IH] using lt_wf_ind. intros s Hn Hs.
  assert (Hz : 0 <= 0 < 256) by lia.
  destruct s as [|b0 [|b1 [|b2 [|b3 [|b4 rest]]]]]; [reflexivity| | | | |];
    repeat match goal with
           | H : Forall _ (_ :: _) |- _ => apply Forall_cons in H as [? H]
           end;
    cbn [Base32.b32encode]; rewrite all_chars_app; apply andb_true_iff.
  - split; [|reflexivity].
    apply b32_char_or_pad, all_chars_substring, quantum_chars; assumption.
  - split; [|reflexivity].
    apply b32_char_or_pad, all_chars_substring, quantum_chars; assumption.
  - split; [|reflexivity].
    apply b32_char_or_pad, all_chars_substring, quantum_chars; assumption.
  - split; [|reflexivity].
    apply b32_char_or_pad, all_chars_substring, quantum_chars; assumption.
  - split; [apply b32_char_or_pad, quantum_chars; assumption|].
    apply (IH (length rest)); [subst n; simpl; lia | reflexivity | assumption].
Qed.

Lemma utf8_bytes_range (s : string) :
  Forall (fun b => 0 <= b < 256) (Base32.utf8_bytes s).
Proof.
  unfold Base32.utf8_bytes. apply Forall_map, Forall_forall. intros c _.
  simpl. pose proof (N_ascii_bounded c). lia.
Qed.

Lemma b32_or_pad_replaced (c : ascii) :
  b32_or_pad c = true ->
  uri_safe (if Ascii.eqb c "=" then "_"%char else c) = true.
Proof.
  destruct c as [[] [] [] [] [] [] [] []]; vm_compute; intros H;
    first [reflexivity | discriminate H].
Qed.

Lemma replace_pad_safe (s : string) :
  all_chars b32_or_pad s = true ->
  all_chars uri_safe (replace "=" "_" s) = true.
Proof.
  induction s as [|c s IH]; simpl; [reflexivity|].
  intros H. apply andb_true_iff in H as [Hc Hs].
  rewrite (b32_or_pad_replaced c Hc), IH by exact Hs. reflexivity.
Qed.

Lemma replace_pad_gone (s : string) : has_char "=" (replace "=" "_" s) = false.
Proof.
  induction s as [|c s IH]; simpl; [reflexivity|].
  rewrite IH, orb_false_r.
  destruct (Ascii.eqb c "=") eqn:E; [reflexivity | exact E].
Qed.

(** C5. The track identifier is a function of the path alone (equal paths
    give equal identifiers); it is the namespace [/com/cmus/track/] followed
    by the encoded path; the encoded path holds only letters, digits and the
    underscore, and no padding character. *)
Theorem track_id_stable_and_safe (p q : string) :
  (p = q -> get_track_id p = get_track_id q)
  /\ get_track_id p = "/com/cmus/track/" +:+ encoded_uri p
  /\ all_chars uri_safe (encoded_uri p) = true
  /\ has_char "=" (encoded_uri p) = false.
Proof.
  split; [intros ->; reflexivity|]. split; [reflexivity|]. split.
  - apply replace_pad_safe, b32encode_chars, utf8_bytes_range.
  - apply replace_pad_gone.
Qed.

Lemma track_id_stable_and_safe_witness :
  get_track_id "/x/song.mp3" = get_track_id "/x/song.mp3"
  /\ all_chars uri_safe (encoded_uri "/x/song.mp3") = true.
Proof.
  pose proof (track_id_stable_and_safe "/x/song.mp3" "/x/song.mp3") as H.
  split; [apply (proj1 H); reflexivity | apply (proj1 (proj2 (proj2 H)))].
Defined.

Example track_id_sample :
  get_track_id "/x/song.mp3" = "/com/cmus/track/F54C643PNZTS43LQGM______".
Proof. vm_compute. reflexivity. Qed.

(** ** Lines without a space *)

Lemma partition_at_absent (sep : ascii) (s : string) :
  has_char sep s = false -> partition_at sep s = None.
Proof.
  induction s as [|c s IH]; simpl; [reflexivity|].
  intros H. apply orb_false_iff in H as [Hc Hs].
  rewrite Hc, IH by exact Hs. reflexivity.
Qed.

Lemma read_line_no_space (new_status : State) (line : string) :
  has_char " " line = false -> read_line new_status line = Raise ValueError.
Proof.
  intros H. unfold read_line, split1. rewrite (partition_at_absent _ _ H).
  reflexivity.
Qed.

Lemma read_lines_raise (lines : list string) (line : string) (new_status : State) :
  line ∈ lines -> has_char " " line = false ->
  exists e, foldM read_line lines new_status = Raise e.
Proof.
  intros Hin Hline. revert new_status.
  induction lines as [|l lines IH]; intros new_status.
  - apply elem_of_nil in Hin. destruct Hin.
  - simpl. unfold mbind, res_mbind.
    apply elem_of_cons in Hin. destruct Hin as [<- | Hin].
    + rewrite read_line_no_space by exact Hline. eexists. reflexivity.
    + destruct (read_line new_status l) as [st'|e].
      * rewrite res_bind_ret. apply IH, Hin.
      * eexists. reflexivity.
Qed.

(** C2 as amended. A block that is parsed (not empty, not an echo of
    [cmus-remote]) and has a line without a space is not parsed to a state:
    an exception escapes from [set_status], which leaves the object as it
    was. The line is not skipped. *)
Theorem set_status_aborts_on_spaceless_line
    (find_artwork : string -> option string) (o : Obj) (raw line : string) :
  raw <> "" -> startswith raw "cmus-remote" = false ->
  line ∈ splitlines raw -> has_char " " line = false ->
  exists e,
    parse_status find_artwork (status o) raw = Raise e
    /\ set_status find_artwork raw o = (o, Raise e).
Proof.
  intros Hne Hecho Hin Hline.
  assert (Hparse : exists e, parse_status find_artwork (status o) raw = Raise e).
  { unfold parse_status. rewrite Hecho.
    destruct (String.eqb_spec raw ""); [contradiction|]. cbn [orb].
    unfold mbind, res_mbind.
    lazymatch goal with
    | |- context [foldM (seed_field ?old) ?keys ?init] =>
        destruct (foldM (seed_field old) keys init) as [seeded|e]
    end.
    - rewrite res_bind_ret.
      destruct (read_lines_raise _ _ seeded Hin Hline) as [e He].
      rewrite He. eexists. reflexivity.
    - eexists. reflexivity. }
  destruct Hparse as [e He]. exists e. split; [exact He|].
  unfold set_status, mbind, M_mbind, m_bind, get_self, lift. rewrite He.
  reflexivity.
Qed.

Lemma set_status_aborts_on_spaceless_line_witness :
  exists e,
    parse_status Samples.no_art (status Samples.fresh) Samples.garbled = Raise e
    /\ set_status Samples.no_art Samples.garbled Samples.fresh
       = (Samples.fresh, Raise e).
Proof.
  apply (set_status_aborts_on_spaceless_line
           Samples.no_art Samples.fresh Samples.garbled "garbage").
  - discriminate.
  - reflexivity.
  - vm_compute. repeat constructor.
  - reflexivity.
Defined.

(** C2, as stated, fails: the block [status playing / garbage / duration 200]
    has the line [garbage]; parsing it raises [ValueError] and no state is
    stored, although the two other lines alone parse to a state. *)
Lemma spaceless_line_counterexample :
  "garbage" ∈ splitlines Samples.garbled
  /\ has_char " " "garbage" = false
  /\ parse_status Samples.no_art None Samples.garbled = Raise ValueError
  /\ set_status Samples.no_art Samples.garbled Samples.fresh
     = (Samples.fresh, Raise ValueError)
  /\ (exists st,
        parse_status Samples.no_art None
          ("status playing" +:+ Samples.nl +:+ "duration 200") = Ret (Some st)).
Proof.
  split; [vm_compute; repeat constructor|].
  repeat apply conj; try reflexivity.
  eexists. reflexivity.
Qed.

(** ** Metadata *)

Lemma put_field_keeps (st : State) (key name : string)
    (conv : string -> res meta_value) (md md' : gmap string meta_value)
    (k : string) :
  put_field st key name conv md = Ret md' -> k <> name -> md' !! k = md !! k.
Proof.
  unfold put_field, mbind, res_mbind. intros H Hk.
  destruct (filled st key) as [v|]; [|congruence].
  destruct (conv v) as [x|e]; simpl in H; [|discriminate].
  injection H as <-. apply lookup_insert_ne. congruence.
Qed.

Lemma put_field_total (st : State) (key name : string)
    (conv : string -> res meta_value) (md : gmap string meta_value) :
  (forall v, filled st key = Some v -> exists x, conv v = Ret x) ->
  exists md', put_field st key name conv md = Ret md'.
Proof.
  unfold put_field, mbind, res_mbind. intros H.
  destruct (filled st key) as [v|]; [|eexists; reflexivity].
  destruct (H v eq_refl) as [x ->]. eexists. reflexivity.
Qed.

Lemma filled_Some (st : State) (key v : string) :
  filled st key = Some v <-> st !! key = Some v /\ v <> "".
Proof.
  unfold filled. destruct (st !! key) as [w|]; [|split; [discriminate | intros [? _]; discriminate]].
  destruct (String.eqb_spec w ""); split.
  - discriminate.
  - intros [[= ->] Hne]. contradiction.
  - intros [= ->]. auto.
  - intros [[= ->] _]. reflexivity.
Qed.

(** C7 as amended. For a state with a [file] field whose [duration] is a
    non-empty integer text of [d] seconds, [get_Metadata] returns a map whose
    [mpris:length] entry is [d * 1000] (given that the product fits in 64
    bits and that [discnumber] and [tracknumber], when filled, are integer
    texts, without which the method raises). *)
Theorem mpris_length_is_duration_times_1000
    (st : State) (file duration : string) (d : Z) :
  st !! "file" = Some file ->
  st !! "duration" = Some duration -> duration <> "" ->
  py_int duration = Ret d ->
  - 2 ^ 63 <= d * 1000 < 2 ^ 63 ->
  (forall v, st !! "discnumber" = Some v -> v <> "" -> exists n, py_int v = Ret n) ->
  (forall v, st !! "tracknumber" = Some v -> v <> "" -> exists n, py_int v = Ret n) ->
  exists md,
    get_Metadata (Some st) = Ret (VDict md)
    /\ md !! "mpris:length" = Some (MInt (d * 1000)).
Proof.
  intros Hfile Hdur Hne Hint Hrange Hdisc Htrack.
  unfold get_Metadata, getitem. rewrite Hfile.
  unfold mbind, res_mbind. rewrite res_bind_ret.
  match goal with
  | |- context [put_field st "duration" ?name ?conv ?md] =>
      assert (Hlen : put_field st "duration" name conv md
                     = Ret (<[name := MInt (d * 1000)]> md))
  end.
  { unfold put_field. rewrite (proj2 (filled_Some st "duration" duration)) by auto.
    unfold mbind, res_mbind. rewrite Hint, res_bind_ret. unfold dbus_Int64.
    replace ((- 2 ^ 63 <=? d * 1000) && (d * 1000 <? 2 ^ 63)) with true
      by (symmetry; apply andb_true_iff; split; [apply Z.leb_le | apply Z.ltb_lt]; lia).
    reflexivity. }
  rewrite Hlen, res_bind_ret.
  repeat (lazymatch goal with
          | |- context [res_bind (put_field ?st ?key ?name ?conv ?md) _] =>
              let md' := fresh "md" in
              let H := fresh "Hmd" in
              destruct (put_field_total st key name conv md) as [md' H];
              [ | rewrite H, res_bind_ret;
                  pose proof (fun k => put_field_keeps st key name conv md md' k H) ]
          end;
          [ intros v Hv; apply filled_Some in Hv as [Hv Hv'];
            first [ eexists; reflexivity
                  | destruct (Hdisc v Hv Hv') as [n ->]; eexists; reflexivity
                  | destruct (Htrack v Hv Hv') as [n ->]; eexists; reflexivity ]
          | ]).
  eexists. split; [reflexivity|].
  repeat match goal with
         | H : forall k, k <> _ -> ?m !! k = _ |- ?m !! _ = _ =>
             rewrite H by discriminate; clear H
         end.
  apply lookup_insert_eq.
Qed.

Lemma mpris_length_is_duration_times_1000_witness :
  exists md,
    get_Metadata (Some Samples.song) = Ret (VDict md)
    /\ md !! "mpris:length" = Some (MInt (200 * 1000)).
Proof.
  apply (mpris_length_is_duration_times_1000 Samples.song "/x/song.mp3" "200" 200).
  - reflexivity.
  - reflexivity.
  - discriminate.
  - reflexivity.
  - lia.
  - intros v Hv. vm_compute in Hv. discriminate Hv.
  - intros v Hv. vm_compute in Hv. discriminate Hv.
Defined.

(** C7, as stated, fails: a duration of 200 seconds gives the entry 200000,
    not 200 * 1000000. *)
Lemma mpris_length_counterexample :
  Samples.song !! "duration" = Some "200"
  /\ py_int "200" = Ret 200
  /\ exists md,
       get_Metadata (Some Samples.song) = Ret (VDict md)
       /\ md !! "mpris:length" = Some (MInt 200000)
       /\ md !! "mpris:length" <> Some (MInt (200 * 1000000)).
Proof.
  split; [reflexivity|]. split; [reflexivity|].
  eexists. split; [reflexivity|].
  assert (Hlen : forall x y : option meta_value,
            x = Some (MInt 200000) -> y = Some (MInt (200 * 1000000)) -> x <> y)
    by (intros x y -> ->; discriminate).
  split; [reflexivity | apply Hlen; reflexivity].
Qed.

(** ** The first observation *)

Lemma show_notification_effect (new_status : option State) (o : Obj) :
  exists o',
    show_notification new_status o = (o', Ret tt)
    /\ status o' = status o /\ properties o' = properties o
    /\ signals o' = signals o /\ commands o' = commands o.
Proof.
  unfold show_notification. simpl.
  destruct new_status as [st|]; [|exists o; auto].
  destruct (negb _); eexists; (split; [reflexivity | auto]).
Qed.

Lemma elements_all_groups :
  elements all_groups
  = ["Shuffle"; "Metadata"; "Volume"; "LoopStatus"; "PlaybackStatus"].
Proof. vm_compute. reflexivity. Qed.

Lemma new_properties_all (st : State) (ls : string) (md : value) (vol : Q) :
  get_LoopStatus (Some st) = Ret ls ->
  get_Metadata (Some st) = Ret md ->
  get_Volume (Some st) = Ret vol ->
  foldM (new_property (Some st)) (elements all_groups) ∅
  = Ret (<["PlaybackStatus" := VStr (get_PlaybackStatus (Some st))]>
          (<["LoopStatus" := VStr ls]>
            (<["Volume" := VFloat vol]>
              (<["Metadata" := md]>
                (<["Shuffle" := VBool (get_Shuffle (Some st))]> ∅))))).
Proof.
  intros Hls Hmd Hvol. rewrite elements_all_groups.
  cbv [foldM new_property prop_dict mbind res_mbind String.eqb Ascii.eqb
       Bool.eqb].
  rewrite !res_bind_ret, Hmd, !res_bind_ret, Hvol, !res_bind_ret, Hls,
    !res_bind_ret.
  reflexivity.
Qed.

Lemma PropertiesChanged_effect (interface : string)
    (changed : gmap string value) (table : gmap string value) (o : Obj) :
  changed <> ∅ -> properties o !! interface = Some table ->
  PropertiesChanged interface changed o
  = (emit (interface, changed)
       (with_properties (<[interface := changed ∪ table]> (properties o)) o),
     Ret tt).
Proof.
  intros Hne Htable.
  unfold PropertiesChanged, mbind, M_mbind, m_bind, get_self, lift, getitem.
  destruct (Nat.ltb_spec 0 (size changed)) as [_|Hsz].
  - rewrite Htable. reflexivity.
  - exfalso. apply Hne, map_size_empty_iff. lia.
Qed.

(** C1 as amended. With no previous state and a new state [st], the set
    computed by the diff is the five groups, and [_status_changed], run on
    an object that has no status yet, emits one [PropertiesChanged] signal
    for the player interface with the recomputed value of each of the five
    properties (given that the three getters that can raise return, and that
    the property table of the interface exists).  [set_status] however calls
    [_status_changed] only when the object already has a status: on a first
    observation it stores the parsed state and emits nothing. *)
Theorem first_observation
    (find_artwork : string -> option string) (o : Obj) (st : State)
    (raw : string) (table : gmap string value) (ls : string) (md : value)
    (vol : Q) :
  status o = None ->
  properties o !! player_iface = Some table ->
  get_LoopStatus (Some st) = Ret ls ->
  get_Metadata (Some st) = Ret md ->
  get_Volume (Some st) = Ret vol ->
  changed_groups (status o) (Some st) = all_groups
  /\ (exists o' props,
        _status_changed (Some st) o = (o', Ret tt)
        /\ signals o' = (player_iface, props) :: signals o
        /\ dom props = all_groups
        /\ props !! "PlaybackStatus" = Some (VStr (get_PlaybackStatus (Some st)))
        /\ props !! "LoopStatus" = Some (VStr ls)
        /\ props !! "Shuffle" = Some (VBool (get_Shuffle (Some st)))
        /\ props !! "Metadata" = Some md
        /\ props !! "Volume" = Some (VFloat vol))
  /\ set_status find_artwork raw o
     = match parse_status find_artwork None raw with
       | Ret new_status => (with_status new_status o, Ret tt)
       | Raise e => (o, Raise e)
       end
  /\ signals (set_status find_artwork raw o).1 = signals o.
Proof.
  intros Hstatus Htable Hls Hmd Hvol.
  assert (Hset : set_status find_artwork raw o
     = match parse_status find_artwork None raw with
       | Ret new_status => (with_status new_status o, Ret tt)
       | Raise e => (o, Raise e)
       end).
  { unfold set_status, mbind, M_mbind, m_bind, get_self, lift, update.
    rewrite Hstatus. destruct (parse_status find_artwork None raw); reflexivity. }
  split; [rewrite Hstatus; reflexivity|]. split; [|split; [exact Hset|]].
  - destruct (show_notification_effect (Some st) o)
      as (o1 & Hshow & _ & Hprops & Hsig & _).
    eexists. eexists. split.
    + unfold _status_changed, mbind, M_mbind, m_bind, get_self, lift.
      rewrite Hstatus. cbn [changed_groups].
      change (0 <? size all_groups)%nat with true.
      change (bool_decide ("Metadata" ∈ all_groups)) with true.
      cbv beta iota. rewrite Hshow.
      rewrite (new_properties_all st ls md vol Hls Hmd Hvol).
      rewrite (PropertiesChanged_effect _ _ table);
        [reflexivity | apply insert_non_empty | congruence].
    + split; [simpl; rewrite Hsig; reflexivity|].
      split; [rewrite !dom_insert_L, dom_empty_L; unfold all_groups; set_solver|].
      repeat split; by simplify_map_eq.
  - rewrite Hset. destruct (parse_status find_artwork None raw); reflexivity.
Qed.

Lemma first_observation_witness :
  changed_groups None (Some Samples.song) = all_groups
  /\ signals (set_status Samples.no_art Samples.block Samples.fresh).1 = [].
Proof.
  destruct (first_observation Samples.no_art Samples.fresh Samples.song
              Samples.block ∅ "None"
              (match get_Metadata (Some Samples.song) with
               | Ret md => md
               | Raise _ => VNone
               end)
              (Qmake 100 1 / 200)%Q)
    as (Hdiff & _ & _ & Hsig).
  - reflexivity.
  - reflexivity.
  - reflexivity.
  - reflexivity.
  - reflexivity.
  - split; [exact Hdiff | exact Hsig].
Defined.

(** C1, as stated, fails: the object has no status, the block parses to a
    state on which every getter returns, and [set_status] stores that state
    without emitting a signal or showing a notification. *)
Lemma first_observation_counterexample :
  status Samples.fresh = None
  /\ parse_status Samples.no_art None Samples.block = Ret (Some Samples.song)
  /\ set_status Samples.no_art Samples.block Samples.fresh
     = (with_status (Some Samples.song) Samples.fresh, Ret tt)
  /\ signals (set_status Samples.no_art Samples.block Samples.fresh).1 = [].
Proof. cbv zeta. repeat apply conj; reflexivity. Qed.

(** ** The command dispatcher *)

Lemma append_empty_r (s : string) : s +:+ "" = s.
Proof.
  induction s as [|c s IH]; [reflexivity|].
  change (String c (s +:+ "") = String c s). rewrite IH. reflexivity.
Qed.

Section Dispatcher.

Variable cmus_remote : list string -> string -> string * string.

(** [SetPosition] drops a call for another track or a negative position. *)
Lemma SetPosition_ignored (o : Obj) (st : State) (file track_id : string)
    (position : Z) :
  status o = Some st -> st !! "file" = Some file ->
  track_id <> get_track_id file \/ position < 0 ->
  SetPosition cmus_remote track_id position o = (o, Ret tt).
Proof.
  intros Hst Hfile Hcase.
  unfold SetPosition, mbind, M_mbind, m_bind, get_self, lift, getitem.
  rewrite Hst, Hfile.
  destruct (String.eqb_spec track_id (get_track_id file)) as [Heq|Hne];
    [|reflexivity].
  destruct Hcase as [Hne | Hneg]; [contradiction|]. cbn [negb].
  destruct (Z.ltb_spec (position `div` 1000) 0) as [_|Hge]; [reflexivity|].
  exfalso. assert (position `div` 1000 < 0); [|lia].
  apply Z.div_lt_upper_bound; lia.
Qed.

(** For the current track, every position that is not negative is sent to
    the player, whatever the [duration] field holds. *)
Lemma SetPosition_sent (o : Obj) (st : State) (file duration : string)
    (position : Z) :
  status o = Some st -> st !! "file" = Some file ->
  st !! "duration" = Some duration -> 0 <= position ->
  commands (SetPosition cmus_remote (get_track_id file) position o).1
  = ("-k " +:+ pretty (position `div` 1000)) :: commands o
  /\ (SetPosition cmus_remote (get_track_id file) position o).2 = Ret tt.
Proof.
  intros Hst Hfile Hdur Hpos.
  unfold SetPosition, mbind, M_mbind, m_bind, get_self, lift, getitem.
  rewrite Hst, Hfile, String.eqb_refl, Hdur. cbn [negb].
  destruct (Z.ltb_spec (position `div` 1000) 0) as [Hlt|_].
  { exfalso. assert (0 <= position `div` 1000); [|lia].
    apply Z.div_pos; lia. }
  unfold int_gt_text, cmus_command.
  cbn [py_format mbind res_mbind res_bind].
  destruct (cmus_remote (commands o) _) as [out err]. cbn [fst snd commands].
  rewrite append_empty_r. split; reflexivity.
Qed.

(** A value whose integer part is 0 or 1 makes [set_Volume] raise before any
    command is run. *)
Lemma set_Volume_raises (o : Obj) (st : State) (value : Q) :
  status o = Some st -> (-1 < value)%Q -> (value < 2)%Q ->
  set_Volume cmus_remote value o = (o, Raise ValueError).
Proof.
  intros Hst Hlo Hhi.
  unfold set_Volume, mbind, M_mbind, m_bind, get_self, lift. rewrite Hst.
  assert (Hint : int_of_float value = 0 \/ int_of_float value = 1).
  { unfold int_of_float. destruct value as [n d]. unfold Qlt in *. simpl in *.
    assert (Hd : 0 < Z.pos d) by lia.
    destruct (Z.lt_ge_cases n 0) as [Hn|Hn].
    - left. rewrite <- (Z.opp_involutive n), Z.quot_opp_l by lia.
      rewrite Z.quot_small by lia. reflexivity.
    - rewrite Z.quot_div_nonneg by lia.
      assert (0 <= n `div` Z.pos d < 2); [|lia].
      split; [apply Z.div_pos; lia | apply Z.div_lt_upper_bound; lia]. }
  destruct Hint as [-> | ->]; reflexivity.
Qed.

End Dispatcher.

(** C6 at a failing input: the status is that of a track of 200 seconds and
    the call names this track with a position of 500 seconds; the command
    [-k 500000] is run. *)
Theorem SetPosition_beyond_duration :
  status Samples.running = Some Samples.song
  /\ Samples.song !! "file" = Some "/x/song.mp3"
  /\ Samples.song !! "duration" = Some "200"
  /\ SetPosition Samples.silent (get_track_id "/x/song.mp3") 500000000
       Samples.running
     = (mkObj (Some Samples.song) {[ player_iface := ∅ ]} ["-k 500000"] [] []
              false,
        Ret tt).
Proof. cbv zeta. repeat apply conj; reflexivity. Qed.

(** C8 at failing inputs: with a status present, the values 1/2, -1/2 and
    3/2 each make [set_Volume] raise [ValueError] with no command run; the
    values -1 and 2 run the 0% and the 100% command. *)
Theorem set_Volume_fraction_raises :
  set_Volume Samples.silent (1 # 2) Samples.running
  = (Samples.running, Raise ValueError)
  /\ set_Volume Samples.silent (- 1 # 2) Samples.running
     = (Samples.running, Raise ValueError)
  /\ set_Volume Samples.silent (3 # 2) Samples.running
     = (Samples.running, Raise ValueError)
  /\ commands (set_Volume Samples.silent (- 1 # 1) Samples.running).1 = ["-v 0%"]
  /\ commands (set_Volume Samples.silent (2 # 1) Samples.running).1 = ["-v 100%"].
Proof. cbv zeta. repeat apply conj; reflexivity. Qed.

(** C9 at a failing input: the state given has no [position]; the player is
    queried once and answers a block with [position 10], which becomes the
    status of the object; the method returns [None]. *)
Theorem get_Position_after_requery :
  Samples.song !! "position" = None
  /\ (let r := get_Position Samples.playing Samples.no_art (Some Samples.song)
                 Samples.running in
      r.2 = Ret VNone
      /\ commands r.1 = ["-Q"]
      /\ status r.1 = Some (<["position" := "10"]> Samples.song)).
Proof. cbv zeta. repeat apply conj; reflexivity. Qed.

(** When the field is there, the stored value times 1000 is returned and the
    player is not queried. *)
Lemma get_Position_present
    (cmus_remote : list string -> string -> string * string)
    (find_artwork : string -> option string)
    (o : Obj) (st : State) (v : string) (n : Z) :
  st !! "position" = Some v -> v <> "" -> py_int v = Ret n ->
  - 2 ^ 31 <= n * 1000 < 2 ^ 31 ->
  get_Position cmus_remote find_artwork (Some st) o = (o, Ret (VInt (n * 1000))).
Proof.
  intros Hv Hne Hint Hrange. unfold get_Position, position_of, lift.
  rewrite Hv. destruct v as [|c v]; [contradiction|]. cbn [String.length Nat.ltb Nat.leb].
  unfold mbind, res_mbind. rewrite Hint. cbn [res_bind]. unfold dbus_Int32.
  replace ((- 2 ^ 31 <=? n * 1000) && (n * 1000 <? 2 ^ 31)) with true
    by (symmetry; apply andb_true_iff; split; [apply Z.leb_le | apply Z.ltb_lt]; lia).
  reflexivity.
Qed.
(** ** The parser, line by line *)

Lemma read_line_entry (new_status : State) (line : string) :
  read_line new_status line
  = match line_entry line with
    | Some (k, v) => Ret (<[k := v]> new_status)
    | None =>
        match split1 " " line with
        | [_; _] => Raise IndexError
        | _ => Raise ValueError
        end
    end.
Proof.
  unfold read_line, line_entry, split1.
  destruct (partition_at " " line) as [[key value]|]; [|reflexivity].
  cbn [unpack2 mbind res_mbind res_bind].
  destruct (String.eqb key "tag" || String.eqb key "set"); [|reflexivity].
  destruct (partition_at " " value) as [[k v]|]; reflexivity.
Qed.

Lemma read_line_Ret (new_status st' : State) (line : string) :
  read_line new_status line = Ret st' ->
  exists k v, line_entry line = Some (k, v) /\ st' = <[k := v]> new_status.
Proof.
  rewrite read_line_entry. destruct (line_entry line) as [[k v]|].
  - intros [= <-]. eauto.
  - destruct (split1 " " line) as [|? [|? [|? ?]]]; discriminate.
Qed.

Lemma read_lines_keep (lines : list string) (st st' : State) (k : string) :
  foldM read_line lines st = Ret st' ->
  (forall line v, line ∈ lines -> line_entry line <> Some (k, v)) ->
  st' !! k = st !! k.
Proof.
  revert st. induction lines as [|line lines IH]; intros st Hfold Hno.
  - injection Hfold as <-. reflexivity.
  - cbn [foldM] in Hfold. unfold mbind, res_mbind in Hfold.
    destruct (read_line st line) as [st1|e] eqn:Hline; [|discriminate].
    rewrite res_bind_ret in Hfold.
    destruct (read_line_Ret _ _ _ Hline) as (k' & v' & Hentry & ->).
    rewrite (IH _ Hfold).
    + apply lookup_insert_ne. intros ->.
      apply (Hno line v'); [apply elem_of_cons; auto | exact Hentry].
    + intros l v Hl. apply Hno. apply elem_of_cons; auto.
Qed.

Lemma read_lines_present (lines : list string) (st st' : State) (k : string) :
  foldM read_line lines st = Ret st' -> is_Some (st !! k) -> is_Some (st' !! k).
Proof.
  revert st. induction lines as [|line lines IH]; intros st Hfold Hk.
  - injection Hfold as <-. exact Hk.
  - cbn [foldM] in Hfold. unfold mbind, res_mbind in Hfold.
    destruct (read_line st line) as [st1|e] eqn:Hline; [|discriminate].
    rewrite res_bind_ret in Hfold.
    destruct (read_line_Ret _ _ _ Hline) as (k' & v' & _ & ->).
    apply (IH _ Hfold). rewrite lookup_insert. case_decide; [eauto | exact Hk].
Qed.

Lemma read_lines_app (l1 l2 : list string) (st : State) :
  foldM read_line (l1 ++ l2) st
  = res_bind (foldM read_line l1 st) (foldM read_line l2).
Proof.
  revert st. induction l1 as [|line l1 IH]; intros st; [reflexivity|].
  cbn [app foldM]. unfold mbind, res_mbind.
  destruct (read_line st line) as [st1|e]; [|reflexivity].
  rewrite !res_bind_ret. apply IH.
Qed.

Lemma seed_present (old : option State) (keys : list string)
    (init seeded : State) (k : string) :
  foldM (seed_field old) keys init = Ret seeded ->
  k ∈ keys \/ is_Some (init !! k) -> is_Some (seeded !! k).
Proof.
  revert init. induction keys as [|key keys IH]; intros init Hfold Hk.
  - injection Hfold as <-. destruct Hk as [Hk|Hk]; [|exact Hk].
    apply elem_of_nil in Hk. destruct Hk.
  - cbn [foldM] in Hfold. unfold mbind, res_mbind in Hfold.
    destruct (seed_field old init key) as [st1|e] eqn:Hseed; [|discriminate].
    rewrite res_bind_ret in Hfold. apply (IH _ Hfold).
    assert (Hst1 : exists v, st1 = <[key := v]> init).
    { unfold seed_field, mbind, res_mbind, getitem in Hseed.
      destruct old as [st|].
      - destruct (st !! key) as [v|]; [|discriminate].
        injection Hseed as <-. eauto.
      - injection Hseed as <-. eauto. }
    destruct Hst1 as [v ->].
    destruct Hk as [Hk|Hk].
    + apply elem_of_cons in Hk. destruct Hk as [-> | Hk]; [|auto].
      right. rewrite lookup_insert_eq. eauto.
    + right. rewrite lookup_insert. case_decide; [eauto | exact Hk].
Qed.

Lemma seed_value (old : State) (keys : list string) (init seeded : State)
    (k : string) :
  foldM (seed_field (Some old)) keys init = Ret seeded ->
  k ∈ keys -> seeded !! k = old !! k.
Proof.
  revert init. induction keys as [|key keys IH]; intros init Hfold Hk.
  - apply elem_of_nil in Hk. destruct Hk.
  - cbn [foldM] in Hfold. unfold mbind, res_mbind in Hfold.
    destruct (seed_field (Some old) init key) as [st1|e] eqn:Hseed;
      [|discriminate].
    rewrite res_bind_ret in Hfold.
    unfold seed_field, mbind, res_mbind, getitem in Hseed.
    destruct (old !! key) as [v|] eqn:Hold; [|discriminate].
    injection Hseed as <-.
    destruct (decide (k ∈ keys)) as [Hin|Hnot]; [exact (IH _ Hfold Hin)|].
    apply elem_of_cons in Hk. destruct Hk as [-> | Hk]; [|contradiction].
    assert (Hkeep : forall ks i s, foldM (seed_field (Some old)) ks i = Ret s ->
                      key ∉ ks -> s !! key = i !! key).
    { clear. induction ks as [|a ks IHks]; intros i s Hf Hn.
      - injection Hf as <-. reflexivity.
      - cbn [foldM] in Hf. unfold mbind, res_mbind in Hf.
        destruct (seed_field (Some old) i a) as [s1|e] eqn:Hs; [|discriminate].
        rewrite res_bind_ret in Hf.
        unfold seed_field, mbind, res_mbind, getitem in Hs.
        destruct (old !! a) as [w|]; [|discriminate]. injection Hs as <-.
        rewrite (IHks _ _ Hf) by (intros H; apply Hn, elem_of_cons; auto).
        apply lookup_insert_ne. intros ->. apply Hn, elem_of_cons; auto. }
    rewrite (Hkeep _ _ _ Hfold Hnot), lookup_insert_eq, Hold. reflexivity.
Qed.

(** What a successful parse is made of: the seeded state, the state after
    the lines, the title, and the cover entry when one was found. *)
Lemma parse_status_Some (find_artwork : string -> option string)
    (old : option State) (raw : string) (st : State) :
  parse_status find_artwork old raw = Ret (Some st) ->
  exists seeded parsed title file,
    foldM (seed_field old) obligatory (<["file" := ""]> (<["title" := ""]> ∅))
      = Ret seeded
    /\ foldM read_line (splitlines raw) seeded = Ret parsed
    /\ parsed !! "title" = Some title /\ parsed !! "file" = Some file
    /\ (st = <["title" := get_title title file]> parsed
        \/ exists cover, st = <["cover" := cover]>
                               (<["title" := get_title title file]> parsed)).
Proof.
  unfold parse_status.
  destruct (String.eqb raw "" || startswith raw "cmus-remote"); [discriminate|].
  unfold mbind, res_mbind.
  lazymatch goal with
  | |- context [foldM (seed_field ?o) ?keys ?init] =>
      destruct (foldM (seed_field o) keys init) as [seeded|e] eqn:Hseed
  end; [|discriminate].
  rewrite res_bind_ret.
  destruct (foldM read_line (splitlines raw) seeded) as [parsed|e] eqn:Hlines;
    [|discriminate].
  rewrite res_bind_ret. unfold getitem.
  destruct (parsed !! "title") as [title|] eqn:Htitle; [|discriminate].
  rewrite res_bind_ret.
  destruct (parsed !! "file") as [file|] eqn:Hfile; [|discriminate].
  rewrite res_bind_ret. intros H.
  exists seeded, parsed, title, file.
  split; [reflexivity|]. split; [exact Hlines|]. split; [exact Htitle|].
  split; [exact Hfile|].
  destruct (get_cover _ _) as [cover|]; injection H as <-.
  - right. exists cover. reflexivity.
  - left. reflexivity.
Qed.

(** What [PropertiesChanged] and [_status_changed] leave alone. *)
Lemma PropertiesChanged_frame (interface : string)
    (changed : gmap string value) (o : Obj) :
  let o' := (PropertiesChanged interface changed o).1 in
  status o' = status o /\ commands o' = commands o
  /\ notifications o' = notifications o
  /\ quit_scheduled o' = quit_scheduled o.
Proof.
  unfold PropertiesChanged, mbind, M_mbind, m_bind, get_self, lift, update,
    getitem.
  destruct (0 <? size changed)%nat; [|cbn; auto].
  destruct (properties o !! interface); cbn; auto.
Qed.

Lemma show_notification_frame (new_status : option State) (o : Obj) :
  let o' := (show_notification new_status o).1 in
  status o' = status o /\ commands o' = commands o
  /\ quit_scheduled o' = quit_scheduled o /\ properties o' = properties o
  /\ signals o' = signals o.
Proof.
  unfold show_notification. cbn [NOTIFICATIONS_ENABLE negb].
  destruct new_status as [st|]; [|cbn; auto].
  destruct (negb _); cbn; auto.
Qed.

Lemma status_changed_frame (new_status : option State) (o : Obj) :
  let o' := (_status_changed new_status o).1 in
  status o' = status o /\ commands o' = commands o
  /\ quit_scheduled o' = quit_scheduled o.
Proof.
  unfold _status_changed, mbind, M_mbind, m_bind, get_self, lift.
  destruct (0 <? size _)%nat; [|cbn; auto].
  assert (Hrest : forall o1,
    status o1 = status o -> commands o1 = commands o ->
    quit_scheduled o1 = quit_scheduled o ->
    let o' := (match foldM (new_property new_status)
                       (elements (changed_groups (status o) new_status)) ∅ with
               | Ret a => PropertiesChanged player_iface a o1
               | Raise e => (o1, Raise e)
               end).1 in
    status o' = status o /\ commands o' = commands o
    /\ quit_scheduled o' = quit_scheduled o).
  { intros o1 H1 H2 H3. destruct (foldM _ _ _) as [props|e]; [|cbn; auto].
    destruct (PropertiesChanged_frame player_iface props o1) as (? & ? & _ & ?).
    cbn zeta. repeat split; congruence. }
  destruct (bool_decide _).
  - destruct (show_notification_effect new_status o) as (o1 & Hshow & ? & _ & _ & ?).
    destruct (show_notification_frame new_status o) as (_ & _ & Hq & _).
    rewrite Hshow in *. cbn [fst] in Hq. apply Hrest; assumption.
  - unfold m_ret. apply Hrest; reflexivity.
Qed.

(** X1. An empty status text, or one that starts with [cmus-remote], is no
    status: [set_status] stores [None] and nothing is announced, shown or
    sent, whatever the object held.  [SetStatus] passes a text on only when
    it is not empty, so an empty one leaves even the stored status alone. *)
Theorem set_status_without_status
    (find_artwork : string -> option string) (o : Obj) (raw : string) :
  raw = "" \/ startswith raw "cmus-remote" = true ->
  set_status find_artwork raw o = (with_status None o, Ret tt)
  /\ SetStatus find_artwork "" o = (o, Ret tt).
Proof.
  intros Hraw. split; [|reflexivity].
  assert (Hparse : parse_status find_artwork (status o) raw = Ret None).
  { unfold parse_status. destruct Hraw as [-> | ->]; [reflexivity|].
    rewrite orb_true_r. reflexivity. }
  unfold set_status, mbind, M_mbind, m_bind, get_self, lift. rewrite Hparse.
  destruct (status o); reflexivity.
Qed.

Lemma set_status_without_status_witness :
  set_status Samples.no_art "cmus-remote: cmus is not running" Samples.running
  = (with_status None Samples.running, Ret tt)
  /\ SetStatus Samples.no_art "" Samples.running = (Samples.running, Ret tt).
Proof.
  apply (set_status_without_status Samples.no_art Samples.running).
  right. reflexivity.
Defined.

(** X2. Every state the parser produces has the ten fields [title], [file]
    and the eight obligatory ones; so an object whose status is [None] or
    has them keeps that through every [set_status], whether it returns or
    raises. *)
Theorem status_fields_kept
    (find_artwork : string -> option string) (o : Obj) (raw : string) :
  status_ok o ->
  status_ok (set_status find_artwork raw o).1
  /\ (forall old st, parse_status find_artwork old raw = Ret (Some st) ->
        has_status_fields st).
Proof.
  intros Hinv.
  assert (Hparse : forall old st,
            parse_status find_artwork old raw = Ret (Some st) ->
            has_status_fields st).
  { intros old st H.
    destruct (parse_status_Some _ _ _ _ H)
      as (seeded & parsed & title & file & Hseed & Hlines & _ & _ & Hst).
    apply Forall_forall. intros k Hk.
    assert (Hparsed : is_Some (parsed !! k)).
    { apply (read_lines_present _ _ _ _ Hlines), (seed_present _ _ _ _ _ Hseed).
      unfold status_fields in Hk.
      apply elem_of_cons in Hk. destruct Hk as [-> | Hk].
      - right. rewrite lookup_insert_ne by discriminate.
        rewrite lookup_insert_eq. eauto.
      - apply elem_of_cons in Hk. destruct Hk as [-> | Hk]; [|auto].
        right. rewrite lookup_insert_eq. eauto. }
    destruct Hst as [-> | [cover ->]];
      rewrite ?lookup_insert; repeat case_decide; eauto. }
  split; [|exact Hparse].
  unfold status_ok in *.
  unfold set_status, mbind, M_mbind, m_bind, get_self, lift, update.
  destruct (parse_status find_artwork (status o) raw) as [new_status|e] eqn:Hp;
    [|cbn [fst]; exact Hinv].
  assert (Hnew : match new_status with
                 | Some st => has_status_fields st
                 | None => True
                 end).
  { destruct new_status as [st|]; [exact (Hparse _ _ Hp) | exact I]. }
  destruct (status o) as [old|] eqn:Hold.
  - destruct (status_changed_frame new_status o) as (Hsame & _).
    destruct (_status_changed new_status o) as [o1 [[]|e]]; cbn [fst] in *.
    + unfold with_status. cbn [status]. exact Hnew.
    + rewrite Hsame, Hold. exact Hinv.
  - unfold m_ret, with_status. cbn [fst status]. exact Hnew.
Qed.

Lemma status_fields_kept_witness :
  status_ok Samples.running
  /\ status_ok (set_status Samples.no_art Samples.block Samples.running).1.
Proof.
  assert (H : status_ok Samples.running).
  { unfold status_ok. cbn [status Samples.running].
    repeat constructor; eexists; reflexivity. }
  split; [exact H|].
  exact (proj1 (status_fields_kept Samples.no_art Samples.running
                  Samples.block H)).
Defined.

(** X3. Lines are applied in order. A field that no line of the block writes
    keeps the value the parser seeded it with, which for an obligatory field
    is the value of the previous state; a field written by some line has the
    value of the last line that writes it.  ([title] and [cover] are set
    after the lines and are left out.) *)
Theorem fields_carried_and_overwritten
    (find_artwork : string -> option string) (old st : State) (raw : string)
    (k : string) :
  parse_status find_artwork (Some old) raw = Ret (Some st) ->
  k <> "title" -> k <> "cover" ->
  (k ∈ obligatory ->
   (forall line v, line ∈ splitlines raw -> line_entry line <> Some (k, v)) ->
   st !! k = old !! k)
  /\ (forall (before : list string) line after v,
        splitlines raw = (before ++ line :: after)%list ->
        line_entry line = Some (k, v) ->
        (forall l w, l ∈ after -> line_entry l <> Some (k, w)) ->
        st !! k = Some v).
Proof.
  intros Hparse Htitle Hcover.
  destruct (parse_status_Some _ _ _ _ Hparse)
    as (seeded & parsed & title & file & Hseed & Hlines & _ & _ & Hst).
  assert (Hk : st !! k = parsed !! k).
  { destruct Hst as [-> | [cover ->]];
      rewrite ?lookup_insert_ne by congruence; reflexivity. }
  rewrite Hk. split.
  - intros Hob Hno.
    rewrite (read_lines_keep _ _ _ _ Hlines Hno).
    exact (seed_value _ _ _ _ _ Hseed Hob).
  - intros before line after v Hsplit Hentry Hno.
    rewrite Hsplit, read_lines_app in Hlines.
    destruct (foldM read_line before seeded) as [st1|e]; [|discriminate].
    rewrite res_bind_ret in Hlines. cbn [foldM] in Hlines.
    unfold mbind, res_mbind in Hlines.
    rewrite read_line_entry, Hentry, res_bind_ret in Hlines.
    rewrite (read_lines_keep _ _ _ _ Hlines Hno). apply lookup_insert_eq.
Qed.

Lemma fields_carried_and_overwritten_witness :
  parse_status Samples.no_art (Some Samples.song) MoreSamples.two_status_lines
  = Ret (Some MoreSamples.stopped)
  /\ MoreSamples.stopped !! "duration" = Samples.song !! "duration"
  /\ MoreSamples.stopped !! "status" = Some "stopped".
Proof.
  assert (Hparse : parse_status Samples.no_art (Some Samples.song)
                     MoreSamples.two_status_lines
                   = Ret (Some MoreSamples.stopped)) by reflexivity.
  assert (Hlines : splitlines MoreSamples.two_status_lines
                   = ["status paused"; "status stopped"]) by reflexivity.
  assert (Hpaused : line_entry "status paused" = Some ("status", "paused"))
    by reflexivity.
  assert (Hstopped : line_entry "status stopped" = Some ("status", "stopped"))
    by reflexivity.
  split; [exact Hparse|].
  destruct (fields_carried_and_overwritten Samples.no_art Samples.song _ _
              "duration" Hparse) as [Hkeep _]; [discriminate..|].
  destruct (fields_carried_and_overwritten Samples.no_art Samples.song _ _
              "status" Hparse) as [_ Hlast]; [discriminate..|].
  split.
  - apply Hkeep.
    + repeat constructor.
    + intros line v Hin. rewrite Hlines in Hin.
      apply elem_of_cons in Hin as [-> | Hin];
        [rewrite Hpaused; discriminate|].
      apply elem_of_cons in Hin as [-> | Hin];
        [rewrite Hstopped; discriminate|].
      apply elem_of_nil in Hin. destruct Hin.
  - apply (Hlast ["status paused"] "status stopped" [] "stopped");
      [exact Hlines | exact Hstopped |].
    intros l w Hin. apply elem_of_nil in Hin. destruct Hin.
Defined.

(** ** The diff, again *)

Lemma status_dict_functional (k g g' : string) :
  (k, g) ∈ status_dict -> (k, g') ∈ status_dict -> g = g'.
Proof.
  unfold status_dict. rewrite !elem_of_cons, !elem_of_nil.
  intros H H'.
  repeat destruct H as [H|H]; try contradiction; injection H as -> ->;
    repeat destruct H' as [H'|H'];
    first [ discriminate H' | injection H' as ->; reflexivity | contradiction ].
Qed.

(** X4. A change of one mapped field alone announces exactly the group of
    that field: when the next state is the previous one with field [k],
    mapped to [g], given a value it did not have, the diff is the set
    holding [g] only. *)
Theorem single_field_change (st : State) (k g v : string) :
  (k, g) ∈ status_dict -> st !! k <> Some v ->
  changed_groups (Some st) (Some (<[k := v]> st)) = {[ g ]}.
Proof.
  intros Hk Hv. apply leibniz_equiv. intros g'.
  unfold changed_groups. rewrite diff_fold_elem, elem_of_singleton. split.
  - intros [H | (k' & v' & Hin & Hnew & Hold)].
    + apply not_elem_of_empty in H. destruct H.
    + destruct (decide (k' = k)) as [-> | Hne].
      * exact (status_dict_functional _ _ _ Hin Hk).
      * rewrite lookup_insert_ne in Hnew by congruence. contradiction.
  - intros ->. right. exists k, v. rewrite lookup_insert_eq. auto.
Qed.

Lemma single_field_change_witness :
  changed_groups (Some Samples.song) (Some (<["title" := "Other"]> Samples.song))
  = {[ "Metadata" ]}.
Proof.
  apply (single_field_change Samples.song "title" "Metadata" "Other").
  - unfold status_dict. rewrite !elem_of_cons. auto 12.
  - discriminate.
Defined.

(** X5. A refresh whose mapped fields all have their previous values is
    silent: [set_status] stores the new state and emits no signal, shows no
    notification and sends nothing, even when other fields ([file],
    [duration], [position], ...) have changed. *)
Theorem unmapped_change_is_silent
    (find_artwork : string -> option string) (o : Obj) (old st : State)
    (raw : string) :
  status o = Some old ->
  parse_status find_artwork (Some old) raw = Ret (Some st) ->
  (forall k g, (k, g) ∈ status_dict -> st !! k = old !! k) ->
  set_status find_artwork raw o = (with_status (Some st) o, Ret tt).
Proof.
  intros Hold Hparse Hsame.
  assert (Hdiff : changed_groups (Some old) (Some st) = ∅).
  { apply leibniz_equiv, elem_of_equiv_empty. intros g Hg.
    unfold changed_groups in Hg. apply diff_fold_elem in Hg.
    destruct Hg as [Hg | (k & v & Hin & Hnew & Hne)].
    - apply not_elem_of_empty in Hg. exact Hg.
    - rewrite (Hsame _ _ Hin) in Hnew. contradiction. }
  unfold set_status, mbind, M_mbind, m_bind, get_self, lift, update.
  rewrite Hold, Hparse.
  unfold _status_changed, mbind, M_mbind, m_bind, get_self, lift.
  rewrite Hold, Hdiff. reflexivity.
Qed.

Lemma unmapped_change_is_silent_witness :
  set_status Samples.no_art MoreSamples.same_tags Samples.running
  = (with_status (Some MoreSamples.other_file) Samples.running, Ret tt).
Proof.
  apply (unmapped_change_is_silent Samples.no_art Samples.running Samples.song).
  - reflexivity.
  - reflexivity.
  - intros k g Hin. unfold MoreSamples.other_file.
    unfold status_dict in Hin. rewrite !elem_of_cons, elem_of_nil in Hin.
    repeat destruct Hin as [Hin|Hin]; try contradiction;
      injection Hin as -> ->; reflexivity.
Defined.

(** X6. [set_status] never talks to the player: it runs no [cmus-remote]
    command and schedules no shutdown, whatever the text and whether it
    returns or raises. *)
Theorem set_status_runs_no_command
    (find_artwork : string -> option string) (o : Obj) (raw : string) :
  commands (set_status find_artwork raw o).1 = commands o
  /\ quit_scheduled (set_status find_artwork raw o).1 = quit_scheduled o.
Proof.
  unfold set_status, mbind, M_mbind, m_bind, get_self, lift, update.
  destruct (parse_status find_artwork (status o) raw) as [new_status|e];
    [|cbn; auto].
  destruct (status o) as [old|].
  - destruct (status_changed_frame new_status o) as (_ & Hc & Hq).
    destruct (_status_changed new_status o) as [o1 [[]|e]]; cbn in *; auto.
  - cbn. auto.
Qed.

(** ** What a change signal carries *)

Lemma new_properties_fold (new_status : option State) (l : list string)
    (acc props : gmap string value) :
  foldM (new_property new_status) l acc = Ret props ->
  dom props = list_to_set l ∪ dom acc
  /\ (forall p, p ∈ l ->
        exists getter v, prop_dict p = Ret getter /\ getter new_status = Ret v
                         /\ props !! p = Some v)
  /\ (forall p, p ∉ l -> props !! p = acc !! p).
Proof.
  revert acc. induction l as [|q l IH]; intros acc Hfold.
  - injection Hfold as <-.
    split; [rewrite list_to_set_nil, union_empty_l_L; reflexivity|].
    split; [|reflexivity].
    intros p Hp. apply elem_of_nil in Hp. destruct Hp.
  - cbn [foldM] in Hfold. unfold mbind, res_mbind in Hfold.
    destruct (new_property new_status acc q) as [acc1|e] eqn:Hq; [|discriminate].
    rewrite res_bind_ret in Hfold.
    unfold new_property, mbind, res_mbind in Hq.
    destruct (prop_dict q) as [getter|e] eqn:Hdict; [|discriminate].
    rewrite res_bind_ret in Hq.
    destruct (getter new_status) as [v|e] eqn:Hget; [|discriminate].
    injection Hq as <-.
    destruct (IH _ Hfold) as (Hdom & Hin & Hout).
    split.
    { rewrite Hdom, dom_insert_L, list_to_set_cons.
      rewrite (assoc_L (∪)), (comm_L (∪) (list_to_set l)). reflexivity. }
    split.
    + intros p Hp. apply elem_of_cons in Hp.
      destruct (decide (p ∈ l)) as [Hl|Hl]; [exact (Hin p Hl)|].
      destruct Hp as [-> | Hp]; [|contradiction].
      exists getter, v. rewrite (Hout q Hl), lookup_insert_eq. auto.
    + intros p Hp. rewrite not_elem_of_cons in Hp. destruct Hp as [Hne Hl].
      rewrite (Hout p Hl). apply lookup_insert_ne. congruence.
Qed.

(** X7. When [_status_changed] returns with a diff that is not empty, it has
    emitted one signal for the player interface; the properties in it are
    exactly the groups of the diff, each with the value its getter returns
    on the new state, and a [Get] of such a property on the object now
    returns that value.  With an empty diff the object is untouched. *)
Theorem change_signal_matches_diff (new_status : option State) (o o' : Obj) :
  _status_changed new_status o = (o', Ret tt) ->
  (changed_groups (status o) new_status = ∅ -> o' = o)
  /\ (changed_groups (status o) new_status <> ∅ ->
      exists props,
        signals o' = (player_iface, props) :: signals o
        /\ dom props = changed_groups (status o) new_status
        /\ forall p, p ∈ changed_groups (status o) new_status ->
             exists getter v,
               prop_dict p = Ret getter /\ getter new_status = Ret v
               /\ props !! p = Some v
               /\ Get player_iface p o' = (o', Ret v)).
Proof.
  unfold _status_changed, mbind, M_mbind, m_bind, get_self, lift.
  set (changed := changed_groups (status o) new_status).
  destruct (Nat.ltb_spec 0 (size changed)) as [Hsz|Hsz].
  - intros Hrun. split.
    { intros Hempty. rewrite Hempty, size_empty in Hsz. lia. }
    intros _.
    assert (Hmid : exists o1,
              signals o1 = signals o /\
              match foldM (new_property new_status) (elements changed) ∅ with
              | Ret a => PropertiesChanged player_iface a o1
              | Raise e => (o1, Raise e)
              end = (o', Ret tt)).
    { destruct (bool_decide _).
      - destruct (show_notification_effect new_status o)
          as (o1 & Hshow & _ & _ & Hsig & _).
        rewrite Hshow in Hrun. eauto.
      - exists o. auto. }
    clear Hrun. destruct Hmid as (o1 & Hsig & Hrun).
    destruct (foldM _ _ _) as [props|e] eqn:Hfold; [|discriminate].
    destruct (new_properties_fold _ _ _ _ Hfold) as (Hdom & Hin & _).
    rewrite list_to_set_elements_L, dom_empty_L, union_empty_r_L in Hdom.
    assert (Hne : props <> ∅).
    { intros ->. rewrite dom_empty_L in Hdom.
      rewrite <- Hdom, size_empty in Hsz. lia. }
    revert Hrun.
    unfold PropertiesChanged, mbind, M_mbind, m_bind, get_self, lift, update,
      getitem.
    destruct (Nat.ltb_spec 0 (size props)) as [_|Hz];
      [|exfalso; apply Hne, map_size_empty_iff; lia].
    destruct (properties o1 !! player_iface) as [table|] eqn:Htable;
      [|discriminate].
    intros [= <-]. exists props. split; [cbn; rewrite Hsig; reflexivity|].
    split; [exact Hdom|].
    intros p Hp. destruct (Hin p) as (getter & v & Hd & Hg & Hv).
    { apply elem_of_elements. exact Hp. }
    exists getter, v. repeat split; try assumption.
    unfold Get, mbind, M_mbind, m_bind, get_self, lift, getitem, emit,
      with_properties. cbn [properties].
    rewrite lookup_insert_eq, (lookup_union_Some_l _ _ _ _ Hv). reflexivity.
  - intros [= <-]. split; [reflexivity|].
    intros Hne. exfalso. apply Hne, leibniz_equiv, size_empty_iff. lia.
Qed.

Lemma change_signal_matches_diff_witness :
  let retitled := Some (<["title" := "Other"]> Samples.song) in
  _status_changed retitled Samples.running
  = ((_status_changed retitled Samples.running).1, Ret tt)
  /\ exists props,
       signals (_status_changed retitled Samples.running).1
       = [(player_iface, props)]
       /\ dom props = {[ "Metadata" ]}.
Proof.
  cbv zeta.
  assert (Hrun : _status_changed (Some (<["title" := "Other"]> Samples.song))
                   Samples.running
                 = ((_status_changed (Some (<["title" := "Other"]> Samples.song))
                       Samples.running).1, Ret tt)) by reflexivity.
  assert (Hdiff : changed_groups (status Samples.running)
                    (Some (<["title" := "Other"]> Samples.song))
                  = {[ "Metadata" ]}) by reflexivity.
  split; [exact Hrun|].
  destruct (change_signal_matches_diff _ _ _ Hrun) as [_ Hsig].
  destruct Hsig as (props & Hprops & Hdom & _).
  - rewrite Hdiff. apply non_empty_singleton_L.
  - exists props. split; [exact Hprops|]. rewrite Hdom. exact Hdiff.
Defined.

(** ** Notifications *)

Lemma html_escape_table_clean (c : ascii) :
  all_chars (fun d => negb (markup_char d)) (html_escape_table c) = true.
Proof. destruct c as [[] [] [] [] [] [] [] []]; reflexivity. Qed.

Lemma html_escape_clean (message : string) :
  all_chars (fun d => negb (markup_char d)) (html_escape message) = true.
Proof.
  induction message as [|c message IH]; [reflexivity|].
  cbn [html_escape]. rewrite all_chars_app, html_escape_table_clean, IH.
  reflexivity.
Qed.

(** X8. [_status_changed] shows a notification exactly when the diff holds
    [Metadata] and the new title is not empty, also when it then raises; the
    notification has the title as header, the cover of the new state as
    image, and a body in which no quote, apostrophe, angle bracket or slash
    is left. *)
Theorem notification_on_metadata_change (new_status : option State) (o : Obj) :
  let changed := changed_groups (status o) new_status in
  let shown := notifications (_status_changed new_status o).1 in
  ("Metadata" ∉ changed -> shown = notifications o)
  /\ (forall st, new_status = Some st -> default "" (st !! "title") = "" ->
        shown = notifications o)
  /\ (forall st title,
        new_status = Some st -> "Metadata" ∈ changed ->
        st !! "title" = Some title -> title <> "" ->
        exists body,
          shown = (title, body, st !! "cover") :: notifications o
          /\ all_chars (fun d => negb (markup_char d)) body = true).
Proof.
  cbv zeta.
  assert (Hrest : forall o1,
    notifications
      (match foldM (new_property new_status)
               (elements (changed_groups (status o) new_status)) ∅ with
       | Ret a => PropertiesChanged player_iface a o1
       | Raise e => (o1, Raise e)
       end).1 = notifications o1).
  { intros o1. destruct (foldM _ _ _) as [props|e]; [|reflexivity].
    apply (PropertiesChanged_frame player_iface props o1). }
  assert (Hrun : notifications (_status_changed new_status o).1
                 = if bool_decide ("Metadata" ∈ changed_groups (status o) new_status)
                   then notifications (show_notification new_status o).1
                   else notifications o).
  { unfold _status_changed, mbind, M_mbind, m_bind, get_self, lift.
    destruct (Nat.ltb_spec 0 (size (changed_groups (status o) new_status)))
      as [_|Hsz].
    - destruct (bool_decide _).
      + destruct (show_notification_effect new_status o) as (o1 & Hshow & _).
        rewrite Hshow. cbn [fst]. apply Hrest.
      + unfold m_ret. apply Hrest.
    - assert (Hempty : changed_groups (status o) new_status = ∅)
        by (apply leibniz_equiv, size_empty_iff; lia).
      rewrite Hempty. reflexivity. }
  rewrite Hrun. split; [|split].
  - intros Hnot. rewrite bool_decide_eq_false_2 by exact Hnot. reflexivity.
  - intros st -> Htitle. destruct (bool_decide _); [|reflexivity].
    unfold show_notification. cbn [NOTIFICATIONS_ENABLE negb].
    rewrite Htitle. reflexivity.
  - intros st title -> Hin Htitle Hne.
    rewrite bool_decide_eq_true_2 by exact Hin.
    unfold show_notification. cbn [NOTIFICATIONS_ENABLE negb].
    rewrite Htitle. cbn [default from_option id].
    destruct (String.eqb_spec title ""); [contradiction|]. cbn [negb].
    eexists. split; [reflexivity|]. apply html_escape_clean.
Qed.

Lemma notification_on_metadata_change_witness :
  exists body,
    notifications
      (_status_changed (Some (<["title" := "Other"]> Samples.song))
         Samples.running).1
    = ("Other", body, (<["title" := "Other"]> Samples.song) !! "cover")
      :: notifications Samples.running
    /\ all_chars (fun d => negb (markup_char d)) body = true.
Proof.
  destruct (notification_on_metadata_change
              (Some (<["title" := "Other"]> Samples.song)) Samples.running)
    as (_ & _ & H).
  apply (H (<["title" := "Other"]> Samples.song) "Other").
  - reflexivity.
  - replace (changed_groups (status Samples.running)
               (Some (<["title" := "Other"]> Samples.song)))
      with ({[ "Metadata" ]} : gset string) by reflexivity.
    apply elem_of_singleton. reflexivity.
  - reflexivity.
  - discriminate.
Defined.

(** ** Transport controls *)

Section Transport.

Variable cmus_remote : list string -> string -> string * string.

(** X9. [PlayPause] pauses exactly when the playback status is Playing.
    When it is Stopped or Paused, playback is started only if the status
    field is missing or is the text "stopped" or "paused"; for any other
    text, such as the empty one a first parse seeds, nothing is sent
    although [get_PlaybackStatus] reports Stopped. *)
Theorem PlayPause_by_status (o : Obj) :
  let text := match status o with
              | Some st => default "stopped" (st !! "status")
              | None => "stopped"
              end in
  (get_PlaybackStatus (status o) = "Playing" ->
   commands (PlayPause cmus_remote o).1 = "-u" :: commands o)
  /\ (text = "paused" \/ text = "stopped" ->
      commands (PlayPause cmus_remote o).1 = "-p" :: commands o)
  /\ (text <> "playing" -> text <> "paused" -> text <> "stopped" ->
      get_PlaybackStatus (status o) = "Stopped"
      /\ PlayPause cmus_remote o = (o, Ret tt)).
Proof.
  cbv zeta.
  assert (Hplaying : get_PlaybackStatus (status o) = "Playing" ->
            match status o with
            | Some st => default "stopped" (st !! "status")
            | None => "stopped"
            end = "playing").
  { unfold get_PlaybackStatus. destruct (status o) as [st|]; [|discriminate].
    destruct (st !! "status") as [s|]; [|discriminate]. cbn [default].
    intros H. destruct (String.eqb_spec s "playing") as [-> | Hne];
      [reflexivity|].
    exfalso. revert H.
    repeat match goal with
           | |- context [match ?x with _ => _ end] => destruct x; try discriminate
           end; try (exfalso; apply Hne; reflexivity). }
  assert (Hother : forall s, s <> "playing" -> s <> "paused" -> s <> "stopped" ->
            match s with
            | "playing" => "Playing" | "paused" => "Paused"
            | "stopped" => "Stopped" | _ => "Stopped"
            end = "Stopped").
  { intros s H1 H2 H3.
    repeat match goal with
           | |- context [match ?x with _ => _ end] => destruct x; try reflexivity
           end; first [ exfalso; apply H1; reflexivity
                      | exfalso; apply H2; reflexivity
                      | exfalso; apply H3; reflexivity ]. }
  unfold PlayPause, mbind, M_mbind, m_bind, get_self, cmus_command.
  set (text := match status o with
               | Some st => default "stopped" (st !! "status")
               | None => "stopped"
               end) in *.
  split; [|split].
  - intros H. rewrite (Hplaying H). cbn [String.eqb Ascii.eqb Bool.eqb orb].
    destruct (cmus_remote (commands o) "-u"). reflexivity.
  - intros [-> | ->]; cbn [String.eqb Ascii.eqb Bool.eqb orb];
      destruct (cmus_remote (commands o) "-p"); reflexivity.
  - intros H1 H2 H3. split.
    + unfold get_PlaybackStatus. subst text.
      destruct (status o) as [st|]; [|reflexivity].
      destruct (st !! "status") as [s|]; [|reflexivity].
      cbn [default] in *. exact (Hother s H1 H2 H3).
    + rewrite (eqb_neq _ _ H1), (eqb_neq _ _ H2), (eqb_neq _ _ H3).
      reflexivity.
Qed.


End Transport.

Lemma PlayPause_by_status_witness :
  commands (PlayPause Samples.silent Samples.running).1 = ["-u"].
Proof.
  apply (proj1 (PlayPause_by_status Samples.silent Samples.running)).
  reflexivity.
Defined.


(** ** Metadata entries *)

Lemma split_from_cons (sep : ascii) (cur s : string) :
  exists first rest, split_from sep cur s = first :: rest.
Proof.
  revert cur. induction s as [|c s IH]; intros cur; cbn [split_from].
  - eauto.
  - destruct (Ascii.eqb c sep); [eauto | apply IH].
Qed.

Lemma append_assoc (a b c : string) : (a +:+ b) +:+ c = a +:+ (b +:+ c).
Proof.
  induction a as [|x a IH]; [reflexivity|].
  change (String x ((a +:+ b) +:+ c) = String x (a +:+ (b +:+ c))).
  rewrite IH. reflexivity.
Qed.

Lemma join_split_from (sep : ascii) (cur s : string) :
  join sep (split_from sep cur s) = cur +:+ s.
Proof.
  revert cur. induction s as [|c s IH]; intros cur; cbn [split_from].
  - cbn [join]. rewrite append_empty_r. reflexivity.
  - destruct (Ascii.eqb_spec c sep) as [-> | Hne].
    + destruct (split_from_cons sep "" s) as (first & rest & Hs).
      pose proof (IH "") as Hrec. rewrite Hs in *.
      change (cur +:+ String sep (join sep (first :: rest))
              = cur +:+ String sep s).
      rewrite Hrec. reflexivity.
    + rewrite IH, append_assoc. reflexivity.
Qed.

Lemma has_char_app (c : ascii) (a b : string) :
  has_char c (a +:+ b) = has_char c a || has_char c b.
Proof.
  induction a as [|x a IH]; [reflexivity|].
  change (has_char c (String x (a +:+ b))
          = has_char c (String x a) || has_char c b).
  cbn [has_char]. rewrite IH, orb_assoc. reflexivity.
Qed.

Lemma split_from_pieces (sep : ascii) (cur s : string) :
  has_char sep cur = false ->
  Forall (fun piece => has_char sep piece = false) (split_from sep cur s).
Proof.
  revert cur. induction s as [|c s IH]; intros cur Hcur; cbn [split_from].
  - repeat constructor. exact Hcur.
  - destruct (Ascii.eqb c sep) eqn:Hc.
    + constructor; [exact Hcur | apply IH; reflexivity].
    + apply IH. rewrite has_char_app, Hcur. cbn [has_char orb].
      rewrite Hc. reflexivity.
Qed.

Lemma str_in_get_url (file_name : string) :
  str_in "://" (get_url file_name) = true.
Proof.
  unfold get_url. destruct (str_in "://" file_name) eqn:H; [exact H|].
  cbn. destruct file_name; reflexivity.
Qed.

(** [get_Metadata] is its first entry followed by the steps of
    [metadata_fields]. *)
Lemma get_Metadata_steps (st : State) :
  get_Metadata (Some st)
  = res_bind (getitem st "file") (fun file =>
      res_bind (foldM (metadata_step st) metadata_fields
                  {[ "mpris:trackid" := MStr (get_track_id file) ]})
               (fun metadata => Ret (VDict metadata))).
Proof.
  unfold get_Metadata, mbind, res_mbind. destruct (getitem st "file") as [file|e];
    [|reflexivity].
  cbn [foldM metadata_fields res_bind]. unfold metadata_step, mbind, res_mbind.
  cbn [fst snd].
  repeat lazymatch goal with
         | |- context [put_field ?a ?b ?c ?d ?e] =>
             destruct (put_field a b c d e); cbn [res_bind]; [|reflexivity]
         end.
  reflexivity.
Qed.

Lemma metadata_steps_entries (st : State)
    (fields : list (string * string * (string -> res meta_value)))
    (md0 md : gmap string meta_value) :
  NoDup (fields.*1.*2) ->
  foldM (metadata_step st) fields md0 = Ret md ->
  (forall name, name ∉ fields.*1.*2 -> md !! name = md0 !! name)
  /\ (forall key name conv, (key, name, conv) ∈ fields ->
        match filled st key with
        | Some v => exists x, conv v = Ret x /\ md !! name = Some x
        | None => md !! name = md0 !! name
        end).
Proof.
  revert md0. induction fields as [|[[key0 name0] conv0] fields IH];
    intros md0 Hnodup Hfold.
  - injection Hfold as <-. split; [reflexivity|].
    intros key name conv H. apply elem_of_nil in H. destruct H.
  - cbn [fmap list_fmap fst snd] in Hnodup.
    apply NoDup_cons in Hnodup as [Hfresh Hnodup].
    cbn [foldM] in Hfold. unfold mbind, res_mbind in Hfold.
    destruct (metadata_step st md0 (key0, name0, conv0)) as [md1|e] eqn:Hstep;
      [|discriminate].
    rewrite res_bind_ret in Hfold. unfold metadata_step in Hstep.
    cbn [fst snd] in Hstep.
    destruct (IH _ Hnodup Hfold) as [Hout Hin].
    assert (Hkeep1 : forall k, k <> name0 -> md1 !! k = md0 !! k).
    { intros k Hk. revert Hstep. unfold put_field, mbind, res_mbind.
      destruct (filled st key0) as [v|]; [|intros [= <-]; reflexivity].
      destruct (conv0 v) as [x|e]; [|discriminate].
      rewrite res_bind_ret. intros [= <-]. apply lookup_insert_ne. congruence. }
    split.
    + intros name Hname. cbn [fmap list_fmap fst snd] in Hname.
      rewrite not_elem_of_cons in Hname. destruct Hname as [Hne Hname].
      rewrite (Hout name Hname). apply Hkeep1, Hne.
    + intros key name conv Hfield.
      apply elem_of_cons in Hfield. destruct Hfield as [[= -> -> ->] | Hfield].
      * rewrite (Hout name0 Hfresh). revert Hstep.
        unfold put_field, mbind, res_mbind.
        destruct (filled st key0) as [v|]; [|intros [= <-]; reflexivity].
        destruct (conv0 v) as [x|e]; [|discriminate].
        rewrite res_bind_ret. intros [= <-]. exists x.
        rewrite lookup_insert_eq. auto.
      * specialize (Hin key name conv Hfield).
        assert (Hne : name <> name0).
        { intros ->. apply Hfresh.
          apply (list_elem_of_fmap_2 snd (fields.*1) (key, name0)).
          apply (list_elem_of_fmap_2 fst fields (key, name0, conv)). exact Hfield. }
        destruct (filled st key) as [v|]; [exact Hin|].
        rewrite Hin. apply Hkeep1, Hne.
Qed.

Lemma metadata_names_NoDup : NoDup (metadata_fields.*1.*2).
Proof.
  cbn [metadata_fields fmap list_fmap fst snd].
  repeat (apply NoDup_cons_2;
          [ rewrite ?not_elem_of_cons; repeat split;
            first [discriminate | apply not_elem_of_nil] |]).
  apply NoDup_nil_2.
Qed.

(** What the map returned by [get_Metadata] holds for each step. *)
Lemma get_Metadata_entries (st : State) (md : gmap string meta_value) :
  get_Metadata (Some st) = Ret (VDict md) ->
  exists file,
    st !! "file" = Some file
    /\ md !! "mpris:trackid" = Some (MStr (get_track_id file))
    /\ forall key name conv, (key, name, conv) ∈ metadata_fields ->
         match filled st key with
         | Some v => exists x, conv v = Ret x /\ md !! name = Some x
         | None => md !! name = None
         end.
Proof.
  rewrite get_Metadata_steps. unfold getitem.
  destruct (st !! "file") as [file|]; [|discriminate].
  rewrite res_bind_ret.
  destruct (foldM _ _ _) as [md'|e] eqn:Hfold; [|discriminate].
  rewrite res_bind_ret. intros [= <-].
  destruct (metadata_steps_entries _ _ _ _ metadata_names_NoDup Hfold)
    as [Hout Hin].
  exists file. split; [reflexivity|]. split.
  - rewrite Hout; [apply lookup_singleton_eq|].
    cbn [metadata_fields fmap list_fmap fst snd].
    rewrite !not_elem_of_cons. repeat split;
      first [discriminate | apply not_elem_of_nil].
  - intros key name conv Hfield. specialize (Hin key name conv Hfield).
    destruct (filled st key) as [v|]; [exact Hin|].
    rewrite Hin. apply lookup_singleton_ne.
    unfold metadata_fields in Hfield.
    rewrite !elem_of_cons, elem_of_nil in Hfield.
    repeat destruct Hfield as [Hfield|Hfield]; try contradiction;
      injection Hfield as _ -> _; discriminate.
Qed.

Lemma metadata_field_artist :
  ("artist", "xesam:artist", fun v => Ret (MArr (split "/" v)))
  ∈ metadata_fields.
Proof. unfold metadata_fields. rewrite !elem_of_cons. auto 8. Qed.

Lemma metadata_field_file :
  ("file", "xesam:url", fun v => Ret (MStr (get_url v))) ∈ metadata_fields.
Proof. unfold metadata_fields. rewrite !elem_of_cons. auto 16. Qed.

(** X11. In the map [get_Metadata] returns, [xesam:artist] is there exactly
    when the [artist] field is filled; it is then the list of the pieces of
    the field between slashes: no piece holds a slash, and the pieces joined
    by slashes are the field again. *)
Theorem artist_list_of_metadata (st : State) (md : gmap string meta_value) :
  get_Metadata (Some st) = Ret (VDict md) ->
  (st !! "artist" = None \/ st !! "artist" = Some "" ->
   md !! "xesam:artist" = None)
  /\ (forall artist, st !! "artist" = Some artist -> artist <> "" ->
        exists pieces,
          md !! "xesam:artist" = Some (MArr pieces)
          /\ join "/" pieces = artist
          /\ Forall (fun piece => has_char "/" piece = false) pieces).
Proof.
  intros Hmd. destruct (get_Metadata_entries _ _ Hmd) as (file & _ & _ & Hfields).
  specialize (Hfields _ _ _ metadata_field_artist). split.
  - intros Hcase.
    assert (Hfilled : filled st "artist" = None).
    { unfold filled. destruct Hcase as [-> | ->]; reflexivity. }
    rewrite Hfilled in Hfields. exact Hfields.
  - intros artist Hst Hne.
    rewrite (proj2 (filled_Some st "artist" artist)) in Hfields by auto.
    destruct Hfields as (x & [= <-] & Hx).
    exists (split "/" artist). split; [exact Hx|]. split.
    + apply (join_split_from "/" "" artist).
    + apply split_from_pieces. reflexivity.
Qed.

Lemma artist_list_of_metadata_witness :
  exists md pieces,
    get_Metadata (Some Samples.song) = Ret (VDict md)
    /\ md !! "xesam:artist" = Some (MArr pieces)
    /\ join "/" pieces = "A/B".
Proof.
  eexists.
  assert (Hmd : get_Metadata (Some Samples.song) = Ret (VDict _)) by reflexivity.
  destruct (proj2 (artist_list_of_metadata _ _ Hmd) "A/B")
    as (pieces & Hpieces & Hjoin & _); [reflexivity | discriminate |].
  exists pieces. auto.
Defined.

(** X12. The map [get_Metadata] returns always names the track: it has the
    [mpris:trackid] of the [file] field, and when that field is not empty
    its [xesam:url] holds a scheme separator: the field itself when it has
    one, the field after [file://] otherwise. *)
Theorem track_entries_of_metadata (st : State) (md : gmap string meta_value) :
  get_Metadata (Some st) = Ret (VDict md) ->
  exists file,
    st !! "file" = Some file
    /\ md !! "mpris:trackid" = Some (MStr (get_track_id file))
    /\ (file = "" -> md !! "xesam:url" = None)
    /\ (file <> "" ->
        exists url, md !! "xesam:url" = Some (MStr url)
                    /\ str_in "://" url = true
                    /\ (str_in "://" file = true -> url = file)
                    /\ (str_in "://" file = false -> url = "file://" +:+ file)).
Proof.
  intros Hmd.
  destruct (get_Metadata_entries _ _ Hmd) as (file & Hfile & Hid & Hfields).
  specialize (Hfields _ _ _ metadata_field_file).
  exists file. split; [exact Hfile|]. split; [exact Hid|]. split.
  - intros ->. unfold filled in Hfields. rewrite Hfile in Hfields.
    exact Hfields.
  - intros Hne.
    rewrite (proj2 (filled_Some st "file" file)) in Hfields by auto.
    destruct Hfields as (x & [= <-] & Hx).
    exists (get_url file). split; [exact Hx|]. split; [apply str_in_get_url|].
    unfold get_url. split; intros ->; reflexivity.
Qed.

Lemma track_entries_of_metadata_witness :
  exists md file,
    get_Metadata (Some Samples.song) = Ret (VDict md)
    /\ Samples.song !! "file" = Some file
    /\ md !! "mpris:trackid" = Some (MStr (get_track_id file)).
Proof.
  eexists.
  assert (Hmd : get_Metadata (Some Samples.song) = Ret (VDict _)) by reflexivity.
  destruct (track_entries_of_metadata _ _ Hmd) as (file & Hfile & Hid & _).
  exists file. auto.
Defined.



(** ** A getter that raises *)

Lemma new_properties_raise (new_status : option State) (l : list string)
    (acc : gmap string value) (p : string)
    (getter : option State -> res value) :
  p ∈ l -> prop_dict p = Ret getter -> raises (getter new_status) ->
  raises (foldM (new_property new_status) l acc).
Proof.
  intros Hp Hdict [e He]. revert acc.
  induction l as [|q l IH]; intros acc.
  - apply elem_of_nil in Hp. destruct Hp.
  - cbn [foldM]. unfold mbind, res_mbind.
    destruct (new_property new_status acc q) as [acc1|e1] eqn:Hq;
      [|exists e1; reflexivity].
    rewrite res_bind_ret. apply elem_of_cons in Hp.
    destruct Hp as [-> | Hp]; [|exact (IH Hp acc1)].
    exfalso. revert Hq. unfold new_property, mbind, res_mbind.
    rewrite Hdict, res_bind_ret, He. discriminate.
Qed.

(** X14. When the getter of a group in the diff raises on the new state
    (such as [get_Metadata] on a [discnumber] like 1/2, or [get_Volume] on a
    volume that is no integer), [set_status] raises too: no signal is
    emitted, the property table is not updated and the stored status stays
    the previous one, so the same diff comes back at the next status. *)
Theorem raising_getter_blocks_update
    (find_artwork : string -> option string) (o : Obj) (old st : State)
    (raw p : string) (getter : option State -> res value) :
  status o = Some old ->
  parse_status find_artwork (Some old) raw = Ret (Some st) ->
  p ∈ changed_groups (Some old) (Some st) ->
  prop_dict p = Ret getter -> raises (getter (Some st)) ->
  raises (set_status find_artwork raw o).2
  /\ status (set_status find_artwork raw o).1 = Some old
  /\ signals (set_status find_artwork raw o).1 = signals o
  /\ properties (set_status find_artwork raw o).1 = properties o.
Proof.
  intros Hold Hparse Hp Hdict Hraise.
  unfold set_status, mbind, M_mbind, m_bind, get_self, lift, update.
  rewrite Hold, Hparse.
  assert (Hrun : exists o1 e,
            _status_changed (Some st) o = (o1, Raise e)
            /\ status o1 = status o /\ signals o1 = signals o
            /\ properties o1 = properties o).
  { unfold _status_changed, mbind, M_mbind, m_bind, get_self, lift.
    rewrite Hold.
    destruct (Nat.ltb_spec 0 (size (changed_groups (Some old) (Some st))))
      as [_|Hsz].
    - destruct (new_properties_raise (Some st)
                  (elements (changed_groups (Some old) (Some st))) ∅ p getter)
        as [e He]; [apply elem_of_elements; exact Hp | assumption..|].
      rewrite He.
      destruct (bool_decide _).
      + destruct (show_notification_effect (Some st) o)
          as (o1 & -> & Hs & Hpr & Hsig & _).
        exists o1, e. repeat split; congruence.
      + exists o, e. repeat split; congruence.
    - exfalso.
      assert (Hempty : changed_groups (Some old) (Some st) = ∅)
        by (apply leibniz_equiv, size_empty_iff; lia).
      rewrite Hempty in Hp. apply not_elem_of_empty in Hp. exact Hp. }
  destruct Hrun as (o1 & e & -> & Hs & Hsig & Hpr). cbn [fst snd].
  split; [exists e; reflexivity|]. repeat split; congruence.
Qed.

Lemma raising_getter_blocks_update_witness :
  raises (set_status Samples.no_art MoreSamples.bad_volume_lines
            Samples.running).2
  /\ status (set_status Samples.no_art MoreSamples.bad_volume_lines
               Samples.running).1 = Some Samples.song
  /\ signals (set_status Samples.no_art MoreSamples.bad_volume_lines
                Samples.running).1 = []
  /\ properties (set_status Samples.no_art MoreSamples.bad_volume_lines
                   Samples.running).1 = {[ player_iface := ∅ ]}.
Proof.
  eapply (raising_getter_blocks_update Samples.no_art Samples.running
            Samples.song MoreSamples.bad_volume
            MoreSamples.bad_volume_lines "Volume").
  - reflexivity.
  - reflexivity.
  - replace (changed_groups (Some Samples.song) (Some MoreSamples.bad_volume))
      with ({[ "Metadata"; "Volume" ]} : gset string) by reflexivity.
    apply elem_of_union_r, elem_of_singleton. reflexivity.
  - reflexivity.
  - exists ValueError. reflexivity.
Defined.

(** ** Volume *)



(** ** Track identifiers are one to one *)

Lemma b32_index_tab (i : Z) : 0 <= i < 32 -> b32_index (Base32._b32tab i) = i.
Proof.
  intros Hi. rewrite <- (Z2Nat.id i) at 2 by lia.
  unfold Base32._b32tab. set (n := Z.to_nat i).
  assert (Hn : (n < 32)%nat) by lia. clearbody n.
  do 32 (destruct n as [|n]; [reflexivity|]). lia.
Qed.

Lemma b32tab_not_pad (i : Z) : 0 <= i < 32 -> Base32._b32tab i <> "="%char.
Proof.
  intros Hi Heq. pose proof (b32tab_char i Hi) as H. rewrite Heq in H.
  discriminate H.
Qed.

Lemma quantum_indices_range (b0 b1 b2 b3 b4 : Z) :
  0 <= b0 < 256 -> 0 <= b1 < 256 -> 0 <= b2 < 256 -> 0 <= b3 < 256 ->
  0 <= b4 < 256 ->
  Forall (fun i => 0 <= i < 32) (quantum_indices b0 b1 b2 b3 b4).
Proof.
  intros H0 H1 H2 H3 H4. unfold quantum_indices.
  assert (Hk1 : 0 <= Z.shiftl (Z.land (b0 * 256 + b1) 1) 16 <= 65536).
  { change 1 with (Z.ones 1) at 1 2. rewrite Z.land_ones, Z.shiftl_mul_pow2 by lia.
    pose proof (Z.mod_pos_bound (b0 * 256 + b1) (2 ^ 1) eq_refl).
    change (2 ^ 1) with 2 in *. change (2 ^ 16) with 65536. lia. }
  set (k1 := Z.shiftl (Z.land (b0 * 256 + b1) 1) 16) in *.
  assert (Hk2 : 0 <= Z.shiftl (Z.land (b2 * 256 + b3 + k1) 3) 8 <= 768).
  { change 3 with (Z.ones 2). rewrite Z.land_ones, Z.shiftl_mul_pow2 by lia.
    pose proof (Z.mod_pos_bound (b2 * 256 + b3 + k1) (2 ^ 2) eq_refl).
    change (2 ^ 2) with 4 in *. change (2 ^ 8) with 256. lia. }
  set (k2 := Z.shiftl (Z.land (b2 * 256 + b3 + k1) 3) 8) in *.
  repeat apply Forall_cons_2; try apply land_31; try apply Forall_nil_2;
    rewrite Z.shiftr_div_pow2 by lia.
  - change (2 ^ 11) with 2048. split; [apply Z.div_pos | apply Z.div_lt_upper_bound]; lia.
  - change (2 ^ 12) with 4096. split; [apply Z.div_pos | apply Z.div_lt_upper_bound]; lia.
  - change (2 ^ 5) with 32. split; [apply Z.div_pos | apply Z.div_lt_upper_bound]; lia.
Qed.

Lemma land_mod (x : Z) :
  Z.land x 1 = x mod 2 /\ Z.land x 3 = x mod 4 /\ Z.land x 31 = x mod 32.
Proof.
  change 1 with (Z.ones 1). change 3 with (Z.ones 2).
  change 31 with (Z.ones 5). rewrite !Z.land_ones by lia. auto.
Qed.

(** The eight positions, read as digits in base 32, are the five bytes read
    as digits in base 256. *)
Lemma quantum_indices_number (b0 b1 b2 b3 b4 : Z) :
  0 <= b0 < 256 -> 0 <= b1 < 256 -> 0 <= b2 < 256 -> 0 <= b3 < 256 ->
  0 <= b4 < 256 ->
  exists i0 i1 i2 i3 i4 i5 i6 i7,
    quantum_indices b0 b1 b2 b3 b4 = [i0; i1; i2; i3; i4; i5; i6; i7]
    /\ i0 * 34359738368 + i1 * 1073741824 + i2 * 33554432 + i3 * 1048576
       + i4 * 32768 + i5 * 1024 + i6 * 32 + i7
       = b0 * 4294967296 + b1 * 16777216 + b2 * 65536 + b3 * 256 + b4.
Proof.
  intros H0 H1 H2 H3 H4. unfold quantum_indices.
  do 8 eexists. split; [reflexivity|].
  rewrite !(proj1 (land_mod _)), !(proj1 (proj2 (land_mod _))),
    !(proj2 (proj2 (land_mod _))).
  rewrite !Z.shiftl_mul_pow2, !Z.shiftr_div_pow2 by lia.
  change (2 ^ 1) with 2. change (2 ^ 2) with 4. change (2 ^ 5) with 32.
  change (2 ^ 6) with 64. change (2 ^ 7) with 128. change (2 ^ 8) with 256.
  change (2 ^ 11) with 2048. change (2 ^ 12) with 4096.
  change (2 ^ 16) with 65536.
  set (c1 := b0 * 256 + b1).
  set (c2 := b2 * 256 + b3 + c1 mod 2 * 65536).
  set (c3 := b4 + c2 mod 4 * 256).
  assert (Hc1 : 0 <= c1 < 65536) by (subst c1; lia).
  assert (Hm1 : 0 <= c1 mod 2 < 2) by (apply Z.mod_pos_bound; lia).
  assert (Hc2 : 0 <= c2 < 131072) by (subst c2; lia).
  assert (Hm2 : 0 <= c2 mod 4 < 4) by (apply Z.mod_pos_bound; lia).
  assert (Hc3 : 0 <= c3 < 1024) by (subst c3; lia).
  assert (E1 : c1 = c1 `div` 2048 * 2048 + (c1 `div` 64) mod 32 * 64
                    + (c1 `div` 2) mod 32 * 2 + c1 mod 2).
  { clearbody c1. Z.div_mod_to_equations. lia. }
  assert (E2 : c2 = c2 `div` 4096 * 4096 + (c2 `div` 128) mod 32 * 128
                    + (c2 `div` 4) mod 32 * 4 + c2 mod 4).
  { clearbody c2. Z.div_mod_to_equations. lia. }
  assert (E3 : c3 = c3 `div` 32 * 32 + c3 mod 32).
  { clearbody c3. Z.div_mod_to_equations. lia. }
  assert (D1 : c1 = b0 * 256 + b1) by reflexivity.
  assert (D2 : c2 = b2 * 256 + b3 + c1 mod 2 * 65536) by reflexivity.
  assert (D3 : c3 = b4 + c2 mod 4 * 256) by reflexivity.
  clearbody c3. clearbody c2. clearbody c1.
  set (i0 := c1 `div` 2048) in *. set (i1 := (c1 `div` 64) mod 32) in *.
  set (i2 := (c1 `div` 2) mod 32) in *. set (m1 := c1 mod 2) in *.
  set (i3 := c2 `div` 4096) in *. set (i4 := (c2 `div` 128) mod 32) in *.
  set (i5 := (c2 `div` 4) mod 32) in *. set (m2 := c2 mod 4) in *.
  set (i6 := c3 `div` 32) in *. set (i7 := c3 mod 32) in *.
  clearbody i0 i1 i2 i3 i4 i5 i6 i7 m1 m2.
  lia.
Qed.

Lemma quantum_explicit (b0 b1 b2 b3 b4 : Z) :
  0 <= b0 < 256 -> 0 <= b1 < 256 -> 0 <= b2 < 256 -> 0 <= b3 < 256 ->
  0 <= b4 < 256 ->
  exists i0 i1 i2 i3 i4 i5 i6 i7,
    Base32.quantum b0 b1 b2 b3 b4
    = string_of_list_ascii
        (map Base32._b32tab [i0; i1; i2; i3; i4; i5; i6; i7])
    /\ (0 <= i0 < 32 /\ 0 <= i1 < 32 /\ 0 <= i2 < 32 /\ 0 <= i3 < 32
        /\ 0 <= i4 < 32 /\ 0 <= i5 < 32 /\ 0 <= i6 < 32 /\ 0 <= i7 < 32)
    /\ i0 * 34359738368 + i1 * 1073741824 + i2 * 33554432 + i3 * 1048576
       + i4 * 32768 + i5 * 1024 + i6 * 32 + i7
       = b0 * 4294967296 + b1 * 16777216 + b2 * 65536 + b3 * 256 + b4.
Proof.
  intros H0 H1 H2 H3 H4.
  destruct (quantum_indices_number b0 b1 b2 b3 b4 H0 H1 H2 H3 H4)
    as (i0 & i1 & i2 & i3 & i4 & i5 & i6 & i7 & Hidx & Hnum).
  pose proof (quantum_indices_range b0 b1 b2 b3 b4 H0 H1 H2 H3 H4) as Hrange.
  rewrite Hidx in Hrange.
  exists i0, i1, i2, i3, i4, i5, i6, i7. split.
  - rewrite <- Hidx. reflexivity.
  - split; [|exact Hnum].
    repeat (apply Forall_cons in Hrange as [? Hrange]). repeat split; lia.
Qed.

Lemma append_cons (c : ascii) (s t : string) :
  String c s +:+ t = String c (s +:+ t).
Proof. reflexivity. Qed.

Lemma append_empty_l (t : string) : "" +:+ t = t.
Proof. reflexivity. Qed.

Ltac b32_explicit b0 b1 b2 b3 b4 :=
  let H := fresh "Hq" in
  let R := fresh "Hr" in
  let N := fresh "Hn" in
  destruct (quantum_explicit b0 b1 b2 b3 b4)
    as (? & ? & ? & ? & ? & ? & ? & ? & H & R & N);
  [lia..|]; rewrite H in *; clear H.

Ltac b32_chars :=
  repeat match goal with
         | H : String _ _ = String _ _ |- _ => injection H as ? H
         | H : EmptyString = EmptyString |- _ => clear H
         | H : "="%char = "="%char |- _ => clear H
         | H : Base32._b32tab ?i = "="%char |- _ =>
             exfalso; apply (b32tab_not_pad i); [lia | exact H]
         | H : "="%char = Base32._b32tab ?i |- _ =>
             exfalso; apply (b32tab_not_pad i); [lia | symmetry; exact H]
         | H : Base32._b32tab ?i = Base32._b32tab ?j |- _ =>
             apply (f_equal b32_index) in H;
             rewrite (b32_index_tab i), (b32_index_tab j) in H by lia
         end.

Lemma peel (M x y r r' : Z) :
  0 <= r < M -> 0 <= r' < M -> x * M + r = y * M + r' -> x = y /\ r = r'.
Proof. intros Hr Hr' H. assert (x = y) by nia. subst. lia. Qed.

Lemma number_inj (a0 a1 a2 a3 a4 b0 b1 b2 b3 b4 : Z) :
  0 <= a0 < 256 -> 0 <= a1 < 256 -> 0 <= a2 < 256 -> 0 <= a3 < 256 ->
  0 <= a4 < 256 ->
  0 <= b0 < 256 -> 0 <= b1 < 256 -> 0 <= b2 < 256 -> 0 <= b3 < 256 ->
  0 <= b4 < 256 ->
  a0 * 4294967296 + a1 * 16777216 + a2 * 65536 + a3 * 256 + a4
  = b0 * 4294967296 + b1 * 16777216 + b2 * 65536 + b3 * 256 + b4 ->
  a0 = b0 /\ a1 = b1 /\ a2 = b2 /\ a3 = b3 /\ a4 = b4.
Proof.
  intros.
  destruct (peel 4294967296 a0 b0 (a1 * 16777216 + a2 * 65536 + a3 * 256 + a4)
              (b1 * 16777216 + b2 * 65536 + b3 * 256 + b4)) as [? E1]; [lia..|].
  destruct (peel 16777216 a1 b1 (a2 * 65536 + a3 * 256 + a4)
              (b2 * 65536 + b3 * 256 + b4)) as [? E2]; [lia..|].
  destruct (peel 65536 a2 b2 (a3 * 256 + a4) (b3 * 256 + b4)) as [? E3]; [lia..|].
  destruct (peel 256 a3 b3 a4 b4) as [? E4]; [lia..|].
  auto.
Qed.

(** Two multiples of [M] that agree above a low part smaller than [M] have
    the same quotient. *)
Lemma multiples_agree (M H la lb ua ub : Z) :
  0 <= la < M -> 0 <= lb < M -> H + la = ua * M -> H + lb = ub * M ->
  ua = ub.
Proof. intros. nia. Qed.

(** Five bytes are determined by the table positions that carry their bits:
    all eight, or the first two, four, five or seven when the bytes after
    the first one, two, three or four are zero. *)
Lemma quantum_bytes_inj
    (i0 i1 i2 i3 i4 i5 i6 i7 j0 j1 j2 j3 j4 j5 j6 j7 : Z)
    (a0 a1 a2 a3 a4 b0 b1 b2 b3 b4 : Z) :
  i0 * 34359738368 + i1 * 1073741824 + i2 * 33554432 + i3 * 1048576
  + i4 * 32768 + i5 * 1024 + i6 * 32 + i7
  = a0 * 4294967296 + a1 * 16777216 + a2 * 65536 + a3 * 256 + a4 ->
  j0 * 34359738368 + j1 * 1073741824 + j2 * 33554432 + j3 * 1048576
  + j4 * 32768 + j5 * 1024 + j6 * 32 + j7
  = b0 * 4294967296 + b1 * 16777216 + b2 * 65536 + b3 * 256 + b4 ->
  (0 <= i0 < 32 /\ 0 <= i1 < 32 /\ 0 <= i2 < 32 /\ 0 <= i3 < 32
   /\ 0 <= i4 < 32 /\ 0 <= i5 < 32 /\ 0 <= i6 < 32 /\ 0 <= i7 < 32) ->
  (0 <= j0 < 32 /\ 0 <= j1 < 32 /\ 0 <= j2 < 32 /\ 0 <= j3 < 32
   /\ 0 <= j4 < 32 /\ 0 <= j5 < 32 /\ 0 <= j6 < 32 /\ 0 <= j7 < 32) ->
  (0 <= a0 < 256 /\ 0 <= a1 < 256 /\ 0 <= a2 < 256 /\ 0 <= a3 < 256
   /\ 0 <= a4 < 256) ->
  (0 <= b0 < 256 /\ 0 <= b1 < 256 /\ 0 <= b2 < 256 /\ 0 <= b3 < 256
   /\ 0 <= b4 < 256) ->
  i0 = j0 /\ i1 = j1 ->
  (a1 = 0 /\ b1 = 0 /\ a2 = 0 /\ b2 = 0 /\ a3 = 0 /\ b3 = 0
   /\ a4 = 0 /\ b4 = 0)
  \/ (i2 = j2 /\ i3 = j3
      /\ ((a2 = 0 /\ b2 = 0 /\ a3 = 0 /\ b3 = 0 /\ a4 = 0 /\ b4 = 0)
          \/ (i4 = j4
              /\ ((a3 = 0 /\ b3 = 0 /\ a4 = 0 /\ b4 = 0)
                  \/ (i5 = j5 /\ i6 = j6
                      /\ ((a4 = 0 /\ b4 = 0) \/ i7 = j7)))))) ->
  a0 = b0 /\ a1 = b1 /\ a2 = b2 /\ a3 = b3 /\ a4 = b4.
Proof.
  intros Ha Hb Hi Hj Hra Hrb [-> ->] Hshape.
  apply number_inj; [lia..|].
  destruct Hshape as [Hz | (-> & -> & [Hz | (-> & [Hz | (-> & -> & [Hz | ->])])])].
  - assert (a0 * 4 = b0 * 4); [|lia].
    apply (multiples_agree 1073741824 (j0 * 34359738368 + j1 * 1073741824)
             (i2 * 33554432 + i3 * 1048576 + i4 * 32768 + i5 * 1024 + i6 * 32 + i7)
             (j2 * 33554432 + j3 * 1048576 + j4 * 32768 + j5 * 1024 + j6 * 32 + j7));
      lia.
  - assert (a0 * 4096 + a1 * 16 = b0 * 4096 + b1 * 16); [|lia].
    apply (multiples_agree 1048576
             (j0 * 34359738368 + j1 * 1073741824 + j2 * 33554432 + j3 * 1048576)
             (i4 * 32768 + i5 * 1024 + i6 * 32 + i7)
             (j4 * 32768 + j5 * 1024 + j6 * 32 + j7));
      lia.
  - assert (a0 * 131072 + a1 * 512 + a2 * 2 = b0 * 131072 + b1 * 512 + b2 * 2);
      [|lia].
    apply (multiples_agree 32768
             (j0 * 34359738368 + j1 * 1073741824 + j2 * 33554432 + j3 * 1048576
              + j4 * 32768)
             (i5 * 1024 + i6 * 32 + i7) (j5 * 1024 + j6 * 32 + j7));
      lia.
  - assert (a0 * 134217728 + a1 * 524288 + a2 * 2048 + a3 * 8
            = b0 * 134217728 + b1 * 524288 + b2 * 2048 + b3 * 8); [|lia].
    apply (multiples_agree 32
             (j0 * 34359738368 + j1 * 1073741824 + j2 * 33554432 + j3 * 1048576
              + j4 * 32768 + j5 * 1024 + j6 * 32) i7 j7);
      lia.
  - lia.
Qed.

Ltac b32_bytes :=
  match goal with
  | Ha : _ = ?a * 4294967296 + _ + _ + _ + _,
    Hb : _ = ?b * 4294967296 + _ + _ + _ + _ |- ?a :: _ = ?b :: _ =>
      destruct (quantum_bytes_inj _ _ _ _ _ _ _ _ _ _ _ _ _ _ _ _
                  _ _ _ _ _ _ _ _ _ _ Ha Hb)
        as (? & ? & ? & ? & ?);
      [ assumption | assumption | lia | lia | auto | tauto | subst ]
  end.

Lemma b32encode_inj (s t : list Z) :
  Forall (fun b => 0 <= b < 256) s -> Forall (fun b => 0 <= b < 256) t ->
  Base32.b32encode s = Base32.b32encode t -> s = t.
Proof.
  remember (length s) as n eqn:Hn. revert s t Hn.
  induction n as [n IH] using lt_wf_ind. intros s t Hn Hs Ht Henc.
  destruct s as [|a0 [|a1 [|a2 [|a3 [|a4 s']]]]];
    destruct t as [|b0 [|b1 [|b2 [|b3 [|b4 t']]]]];
    repeat match goal with
           | H : Forall _ (_ :: _) |- _ => apply Forall_cons in H as [? H]
           end;
    try reflexivity;
    cbn [Base32.b32encode] in Henc;
    repeat match type of Henc with
           | context [Base32.quantum ?x0 ?x1 ?x2 ?x3 ?x4] =>
               b32_explicit x0 x1 x2 x3 x4
           end;
    cbn [map string_of_list_ascii String.substring] in Henc;
    rewrite ?append_cons, ?append_empty_l in Henc;
    try discriminate Henc;
    b32_chars; subst; b32_bytes; try reflexivity.
  f_equal. f_equal. f_equal. f_equal. f_equal.
  apply (IH (length s')); [cbn [length]; lia | reflexivity | assumption..].
Qed.

Lemma utf8_bytes_inj (p q : string) :
  Base32.utf8_bytes p = Base32.utf8_bytes q -> p = q.
Proof.
  unfold Base32.utf8_bytes. revert q.
  induction p as [|c p IH]; intros [|d q]; cbn [list_ascii_of_string map];
    try discriminate; [reflexivity|].
  intros [= Hc Hrest]. apply N2Z.inj in Hc.
  apply (f_equal ascii_of_N) in Hc. rewrite !ascii_N_embedding in Hc.
  subst d. f_equal. apply IH, Hrest.
Qed.

Lemma replace_pad_inj (s t : string) :
  all_chars b32_or_pad s = true -> all_chars b32_or_pad t = true ->
  replace "=" "_" s = replace "=" "_" t -> s = t.
Proof.
  assert (Hchar : forall c d, b32_or_pad c = true -> b32_or_pad d = true ->
            (if Ascii.eqb c "=" then "_"%char else c)
            = (if Ascii.eqb d "=" then "_"%char else d) -> c = d).
  { intros c d Hc Hd.
    destruct (Ascii.eqb_spec c "=") as [-> | _];
      destruct (Ascii.eqb_spec d "=") as [-> | _]; auto.
    - intros <-. discriminate Hd.
    - intros ->. discriminate Hc. }
  revert t. induction s as [|c s IH]; intros [|d t]; cbn [replace all_chars];
    try discriminate; [reflexivity|].
  intros Hs Ht [= Hc Hrest].
  apply andb_true_iff in Hs as [Hc1 Hs]. apply andb_true_iff in Ht as [Hd1 Ht].
  rewrite (Hchar c d Hc1 Hd1 Hc), (IH t Hs Ht Hrest). reflexivity.
Qed.

(** X16. Track identifiers are one to one: two paths with the same
    identifier are the same path.  So [SetPosition] with the identifier of
    any path other than the current file is dropped, whatever the
    position. *)
Theorem track_id_one_to_one
    (cmus_remote : list string -> string -> string * string)
    (p q : string) :
  (get_track_id p = get_track_id q -> p = q)
  /\ (forall (o : Obj) (st : State) (position : Z),
        status o = Some st -> st !! "file" = Some q -> p <> q ->
        SetPosition cmus_remote (get_track_id p) position o = (o, Ret tt)).
Proof.
  assert (Hinj : get_track_id p = get_track_id q -> p = q).
  { unfold get_track_id, encoded_uri, DESKTOP_NAME. intros H.
    rewrite !append_cons, !append_empty_l in H.
    repeat match goal with
           | H : String _ _ = String _ _ |- _ => injection H as H
           end.
    apply utf8_bytes_inj, b32encode_inj; try apply utf8_bytes_range.
    apply replace_pad_inj; try (apply b32encode_chars, utf8_bytes_range).
    exact H. }
  split; [exact Hinj|].
  intros o st position Hst Hfile Hne.
  apply (SetPosition_ignored cmus_remote o st q); auto.
Qed.

Lemma track_id_one_to_one_witness :
  SetPosition Samples.silent (get_track_id "/y/other.ogg") 1000
    Samples.running
  = (Samples.running, Ret tt).
Proof.
  apply (proj2 (track_id_one_to_one Samples.silent "/y/other.ogg"
                  "/x/song.mp3") Samples.running Samples.song 1000).
  - reflexivity.
  - reflexivity.
  - discriminate.
Defined.

(** ** The cover search *)

Lemma insert_ranked_elem (e x : nat * string) (l : list (nat * string)) :
  x ∈ insert_ranked e l <-> x = e \/ x ∈ l.
Proof.
  induction l as [|e' l IH]; cbn [insert_ranked].
  - rewrite list_elem_of_singleton, elem_of_nil. tauto.
  - destruct (e.1 <=? e'.1)%nat.
    + rewrite elem_of_cons. tauto.
    + rewrite !elem_of_cons, IH. tauto.
Qed.

Lemma sort_ranked_elem (x : nat * string) (l : list (nat * string)) :
  x ∈ sort_ranked l <-> x ∈ l.
Proof.
  induction l as [|e l IH]; cbn [sort_ranked]; [reflexivity|].
  rewrite insert_ranked_elem, elem_of_cons, IH. tauto.
Qed.

Lemma insert_ranked_sorted (e : nat * string) (l : list (nat * string)) :
  ranked_sorted l -> ranked_sorted (insert_ranked e l).
Proof.
  induction l as [|e' l IH]; cbn [insert_ranked ranked_sorted].
  - intros _. split; [apply Forall_nil_2 | exact I].
  - intros [Hall Hl].
    destruct (Nat.leb_spec e.1 e'.1) as [Hle|Hgt]; cbn [ranked_sorted].
    + split; [|split; assumption].
      apply Forall_cons_2; [lia|].
      eapply Forall_impl; [exact Hall|]. cbn. intros; lia.
    + split; [|apply IH, Hl].
      apply Forall_forall. intros x Hx. apply insert_ranked_elem in Hx.
      destruct Hx as [-> | Hx]; [lia|].
      rewrite Forall_forall in Hall. apply Hall, Hx.
Qed.

Lemma sort_ranked_sorted (l : list (nat * string)) :
  ranked_sorted (sort_ranked l).
Proof.
  induction l as [|e l IH]; cbn [sort_ranked]; [exact I|].
  apply insert_ranked_sorted, IH.
Qed.

Lemma with_ranks_elem (names : list string) (l : list string)
    (ranked : list (nat * string)) (k : nat) (x : string) :
  with_ranks names l = Some ranked ->
  (k, x) ∈ ranked <-> x ∈ l /\ rank names x = Some k.
Proof.
  revert ranked. induction l as [|y l IH]; intros ranked; cbn [with_ranks].
  - intros [= <-]. rewrite !elem_of_nil. tauto.
  - destruct (rank names y) as [ky|] eqn:Hy; [|discriminate].
    destruct (with_ranks names l) as [r|]; [|discriminate].
    intros [= <-]. rewrite !elem_of_cons, (IH r eq_refl). split.
    + intros [[= -> ->] | [H1 H2]]; auto.
    + intros [[-> | H1] H2]; [left; congruence | auto].
Qed.

Lemma with_ranks_total (names : list string) (l : list string) :
  Forall (fun x => starts_with_any names x = true) l ->
  exists ranked, with_ranks names l = Some ranked.
Proof.
  assert (Hrank : forall x, starts_with_any names x = true ->
                    exists k, rank names x = Some k).
  { intros x. unfold starts_with_any.
    induction names as [|name names IH]; cbn [existsb rank]; [discriminate|].
    destruct (startswith (lower x) name); [eauto|]. cbn [orb].
    intros H. destruct (IH H) as [k ->]. eauto. }
  induction l as [|x l IH]; intros Hall; cbn [with_ranks]; [eauto|].
  apply Forall_cons in Hall as [Hx Hall].
  destruct (Hrank x Hx) as [k ->]. destruct (IH Hall) as [r ->]. eauto.
Qed.

Section CoverChoice.

Variable dir_of : string -> string.
Variable listdir : string -> option (list string).
Variable path_exists : string -> bool.

Lemma first_existing_sorted (dirpath : string) (ranked : list (nat * string))
    (p : string) :
  ranked_sorted ranked ->
  first_existing path_exists dirpath ranked.*2 = Some p ->
  exists k f,
    (k, f) ∈ ranked /\ p = path_join dirpath f /\ path_exists p = true
    /\ forall k' f', (k', f') ∈ ranked ->
         path_exists (path_join dirpath f') = true -> (k <= k')%nat.
Proof.
  induction ranked as [|[k f] ranked IH]; intros Hs;
    cbn [fmap list_fmap snd first_existing]; [discriminate|].
  destruct Hs as [Hall Hs].
  destruct (path_exists (path_join dirpath f)) eqn:Hex.
  - intros [= <-]. exists k, f. split; [apply elem_of_cons; auto|].
    split; [reflexivity|]. split; [exact Hex|].
    intros k' f' Hin _. apply elem_of_cons in Hin as [[= -> ->] | Hin]; [lia|].
    rewrite Forall_forall in Hall. exact (Hall _ Hin).
  - intros Hrest. destruct (IH Hs Hrest) as (k0 & f0 & Hin & Hp & Hex0 & Hmin).
    exists k0, f0. split; [apply elem_of_cons; auto|].
    split; [exact Hp|]. split; [exact Hex0|].
    intros k' f' Hin' Hex'. apply elem_of_cons in Hin' as [[= -> ->] | Hin'].
    + congruence.
    + exact (Hmin _ _ Hin' Hex').
Qed.

Lemma first_existing_none (dirpath : string) (files : list string) :
  first_existing path_exists dirpath files = None <->
  forall f, f ∈ files -> path_exists (path_join dirpath f) = false.
Proof.
  induction files as [|f files IH]; cbn [first_existing].
  - split; [|reflexivity]. intros _ f Hf. apply elem_of_nil in Hf. destruct Hf.
  - destruct (path_exists (path_join dirpath f)) eqn:Hex.
    + split; [discriminate|]. intros H.
      rewrite (H f) in Hex by (apply elem_of_cons; auto). discriminate.
    + rewrite IH. split.
      * intros H f' Hf'. apply elem_of_cons in Hf' as [-> | Hf']; auto.
      * intros H f' Hf'. apply H. apply elem_of_cons; auto.
Qed.

Lemma startswith_empty (s : string) : startswith s "" = true.
Proof. unfold startswith. destruct s; reflexivity. Qed.

Lemma rank_Some_starts (names : list string) (f : string) (k : nat) :
  rank names f = Some k -> starts_with_any names f = true.
Proof.
  unfold starts_with_any. revert k.
  induction names as [|name names IH]; intros k; cbn [rank existsb];
    [discriminate|].
  destruct (startswith (lower f) name); [reflexivity|].
  destruct (rank names f) as [k0|]; [|discriminate].
  intros _. exact (IH k0 eq_refl).
Qed.

Lemma choose_cover_single (dirpath : string) (listing : list string)
    (f : string) :
  filter (fun x => is_image x = true) listing = [f] ->
  choose_cover path_exists dirpath listing
  = if path_exists (path_join dirpath f)
    then Some (path_join dirpath f) else None.
Proof.
  intros Hf. unfold choose_cover. rewrite Hf. cbn [length Nat.eqb].
  replace (filter (fun x => starts_with_any [""] x = true) [f]) with [f].
  - cbn [with_ranks rank]. rewrite startswith_empty. reflexivity.
  - rewrite filter_cons, decide_True; [reflexivity|].
    unfold starts_with_any. cbn [existsb]. rewrite startswith_empty.
    reflexivity.
Qed.

Lemma choose_cover_ranked (dirpath : string) (listing : list string) :
  length (filter (fun x => is_image x = true) listing) <> 1%nat ->
  exists ranked,
    choose_cover path_exists dirpath listing
    = first_existing path_exists dirpath ranked.*2
    /\ ranked_sorted ranked
    /\ forall k f, (k, f) ∈ ranked <->
         f ∈ filter (fun x => is_image x = true) listing
         /\ rank cover_names f = Some k.
Proof.
  intros Hlen. unfold choose_cover.
  set (images := filter (fun x => is_image x = true) listing) in *.
  destruct (Nat.eqb_spec (length images) 1) as [|_]; [contradiction|].
  set (candidates := filter (fun x => starts_with_any cover_names x = true)
                       images).
  destruct (with_ranks_total cover_names candidates) as [ranked Hranked].
  { apply Forall_forall. intros x Hx.
    apply list_elem_of_filter in Hx. tauto. }
  rewrite Hranked. exists (sort_ranked ranked).
  split; [reflexivity|]. split; [apply sort_ranked_sorted|].
  intros k f. rewrite sort_ranked_elem, (with_ranks_elem _ _ _ _ _ Hranked).
  unfold candidates. rewrite list_elem_of_filter. split; [tauto|].
  intros [Hf Hk]. repeat split; try assumption.
  exact (rank_Some_starts _ _ _ Hk).
Qed.

(** X17. The cover searched in the directory of a file that is not an
    [http://] stream, once the directory is listed.  When exactly one entry
    has an image extension, that entry is the cover if it exists, whatever
    its name.  Otherwise a cover is an existing image whose name, in lower
    case, starts with one of the five keywords, and no existing image has a
    keyword of better priority; there is no cover exactly when no image
    with a keyword exists. *)
Theorem get_dir_cover_by_priority (filepath : string) (listing : list string) :
  startswith filepath "http://" = false ->
  listdir (cover_dir dir_of filepath) = Some listing ->
  let dirpath := cover_dir dir_of filepath in
  let images := filter (fun x => is_image x = true) listing in
  let cover := get_dir_cover dir_of listdir path_exists filepath in
  (forall f, images = [f] ->
     cover = if path_exists (path_join dirpath f)
             then Some (path_join dirpath f) else None)
  /\ (length images <> 1%nat ->
      (forall p, cover = Some p ->
         exists k f,
           f ∈ images /\ rank cover_names f = Some k
           /\ p = path_join dirpath f /\ path_exists p = true
           /\ forall k' f', f' ∈ images -> rank cover_names f' = Some k' ->
                path_exists (path_join dirpath f') = true -> (k <= k')%nat)
      /\ (cover = None <->
          forall f k, f ∈ images -> rank cover_names f = Some k ->
            path_exists (path_join dirpath f) = false)).
Proof.
  intros Hhttp Hlist. cbv zeta. unfold get_dir_cover.
  rewrite Hhttp, Hlist.
  split; [apply choose_cover_single|].
  intros Hlen.
  destruct (choose_cover_ranked (cover_dir dir_of filepath) listing Hlen)
    as (ranked & -> & Hsorted & Hin).
  split.
  - intros p Hp.
    destruct (first_existing_sorted _ _ p Hsorted Hp)
      as (k & f & Hkf & -> & Hex & Hmin).
    apply Hin in Hkf as [Hf Hk]. exists k, f. repeat split; try assumption.
    intros k' f' Hf' Hk' Hex'. apply (Hmin k' f'); [|exact Hex'].
    apply Hin. auto.
  - rewrite first_existing_none. split.
    + intros H f k Hf Hk. apply H.
      apply (list_elem_of_fmap_2 snd _ (k, f)), Hin. auto.
    + intros H f Hf. apply list_elem_of_fmap in Hf as ([k f'] & -> & Hkf).
      apply Hin in Hkf as [Hf Hk]. exact (H _ _ Hf Hk).
Qed.

End CoverChoice.

Lemma get_dir_cover_by_priority_witness :
  get_dir_cover CoverSamples.album_dir CoverSamples.album_listing
    CoverSamples.all_exist "/music/album/01.ogg"
  = Some "/music/album/art.PNG".
Proof.
  exact (proj1 (get_dir_cover_by_priority
                  CoverSamples.album_dir CoverSamples.album_listing
                  CoverSamples.all_exist "/music/album/01.ogg"
                  ["01.ogg"; "art.PNG"; "notes.txt"] eq_refl eq_refl)
               "art.PNG" eq_refl).
Defined.

(** ** Shuffle *)

Lemma length_positive (v : string) :
  (0 <? Z.of_nat (String.length v)) = negb (String.eqb v "").
Proof. destruct v; reflexivity. Qed.

(** X18. [get_Shuffle] is true exactly when the state has a [shuffle] text
    that is not empty: [bool] of a text asks for nothing else, so the text
    [false] gives true as well. *)
Theorem get_Shuffle_nonempty (new_status : option State) :
  (get_Shuffle new_status = true <->
   exists st v, new_status = Some st /\ st !! "shuffle" = Some v /\ v <> "")
  /\ forall st, get_Shuffle (Some (<["shuffle" := "false"]> st)) = true.
Proof.
  split.
  - unfold get_Shuffle. destruct new_status as [st|].
    + destruct (st !! "shuffle") as [v|] eqn:Hv.
      * rewrite length_positive.
        destruct (String.eqb_spec v "") as [->|Hne]; cbn [negb]; split.
        -- discriminate.
        -- intros (st' & v' & [= <-] & Hv' & Hne). congruence.
        -- intros _. exists st, v. auto.
        -- reflexivity.
      * split; [discriminate|].
        intros (st' & v' & [= <-] & Hv' & _). congruence.
    + split; [discriminate|]. intros (st' & v' & H & _). discriminate.
  - intros st. unfold get_Shuffle. rewrite lookup_insert_eq. reflexivity.
Qed.

(** ** The title taken from the file name *)

Lemma length_app (a b : string) :
  String.length (a +:+ b) = (String.length a + String.length b)%nat.
Proof.
  induction a as [|x a IH]; [reflexivity|].
  change (S (String.length (a +:+ b)) = S (String.length a + String.length b)).
  rewrite IH. reflexivity.
Qed.

Lemma substring_all (s : string) :
  String.substring 0 (String.length s) s = s.
Proof. induction s as [|c s IH]; cbn; [reflexivity | rewrite IH; reflexivity]. Qed.

Lemma substring_skip (a b : string) (n : nat) :
  String.substring (String.length a) n (a +:+ b) = String.substring 0 n b.
Proof.
  induction a as [|x a IH]; [reflexivity|].
  change (String.substring (String.length a) n (a +:+ b)
          = String.substring 0 n b).
  exact IH.
Qed.

Lemma substring_head (a b : string) :
  String.substring 0 (String.length a) (a +:+ b) = a.
Proof.
  induction a as [|x a IH]; [destruct b; reflexivity|].
  change (String x (String.substring 0 (String.length a) (a +:+ b))
          = String x a).
  rewrite IH. reflexivity.
Qed.

Lemma rfind_from_absent (i found : Z) (c : ascii) (s : string) :
  has_char c s = false -> rfind_from i found c s = found.
Proof.
  revert i found. induction s as [|d s IH]; intros i found; cbn [has_char rfind_from];
    [reflexivity|].
  destruct (Ascii.eqb d c); [discriminate|]. cbn [orb]. apply IH.
Qed.

Lemma rfind_from_app (i found : Z) (c : ascii) (a b : string) :
  rfind_from i found c (a +:+ b)
  = rfind_from (i + Z.of_nat (String.length a)) (rfind_from i found c a) c b.
Proof.
  revert i found. induction a as [|x a IH]; intros i found.
  - change (rfind_from i found c b = rfind_from (i + 0) found c b).
    rewrite Z.add_0_r. reflexivity.
  - change (rfind_from (i + 1) (if Ascii.eqb x c then i else found) c (a +:+ b)
            = rfind_from (i + Z.of_nat (S (String.length a)))
                (rfind_from (i + 1) (if Ascii.eqb x c then i else found) c a)
                c b).
    rewrite IH. f_equal. lia.
Qed.

Lemma rfind_last (c : ascii) (a b : string) :
  has_char c b = false ->
  rfind c (a +:+ String c b) = Z.of_nat (String.length a).
Proof.
  intros Hb. unfold rfind. rewrite rfind_from_app. cbn [rfind_from].
  rewrite Ascii.eqb_refl. rewrite rfind_from_absent by exact Hb. lia.
Qed.

Lemma basename_plain (p : string) :
  has_char "/" p = false -> basename p = p.
Proof.
  intros Hp. unfold basename, rfind, slice.
  rewrite rfind_from_absent by exact Hp.
  change (Z.to_nat (-1 + 1)) with 0%nat.
  replace (Z.to_nat (Z.of_nat (String.length p) - (-1 + 1)))
    with (String.length p) by lia.
  apply substring_all.
Qed.

Lemma basename_after_slash (dir p : string) :
  has_char "/" p = false -> basename (dir +:+ String "/" p) = p.
Proof.
  intros Hp. unfold basename, slice. rewrite rfind_last by exact Hp.
  rewrite length_app. cbn [String.length].
  replace (Z.to_nat (Z.of_nat (String.length dir) + 1))
    with (String.length (dir +:+ "/"))
    by (rewrite length_app; cbn [String.length]; lia).
  replace (Z.to_nat (Z.of_nat (String.length dir + S (String.length p))
                     - (Z.of_nat (String.length dir) + 1)))
    with (String.length p) by lia.
  replace (dir +:+ String "/" p) with ((dir +:+ "/") +:+ p)
    by (rewrite append_assoc; reflexivity).
  rewrite substring_skip. apply substring_all.
Qed.

Lemma splitext_root_ext (name ext : string) :
  has_char "/" name = false -> has_char "/" ext = false ->
  has_char "." ext = false -> has_other "." name = true ->
  splitext_root (name +:+ String "." ext) = name.
Proof.
  intros Hname Hext Hdot Hother. unfold splitext_root.
  rewrite (rfind_last "." name ext Hdot).
  unfold rfind at 1 2.
  rewrite rfind_from_absent
    by (rewrite has_char_app, Hname; cbn [has_char orb Ascii.eqb];
        exact Hext).
  unfold slice. change (Z.to_nat (-1 + 1)) with 0%nat.
  change (Z.to_nat 0) with 0%nat.
  replace (Z.to_nat (Z.of_nat (String.length name) - (-1 + 1)))
    with (String.length name) by lia.
  replace (Z.to_nat (Z.of_nat (String.length name) - 0))
    with (String.length name) by lia.
  rewrite substring_head, Hother.
  replace (-1 <? Z.of_nat (String.length name)) with true
    by (symmetry; apply Z.ltb_lt; lia).
  reflexivity.
Qed.

(** X19. With an empty title tag, the title of a file that is no URL (its
    path has no [://]) is the name of the file without its directory and
    without its extension: for a path made of a directory part that is
    empty or ends with a slash, a name without slash that is not made of
    dots only, a dot and an extension without slash or dot, the title is the
    name. *)
Theorem title_from_file_name (dir name ext : string) :
  dir = "" \/ (exists d, dir = d +:+ "/") ->
  has_char "/" name = false -> has_other "." name = true ->
  has_char "/" ext = false -> has_char "." ext = false ->
  str_in "://" (dir +:+ name +:+ "." +:+ ext) = false ->
  get_title "" (dir +:+ name +:+ "." +:+ ext) = name.
Proof.
  intros Hdir Hname Hother Hext Hdot Hurl. unfold get_title.
  rewrite Hurl. cbn [String.eqb negb].
  assert (Hfile : has_char "/" (name +:+ String "." ext) = false)
    by (rewrite has_char_app, Hname; cbn [has_char orb Ascii.eqb]; exact Hext).
  assert (Hbase : basename (dir +:+ name +:+ "." +:+ ext)
                  = name +:+ String "." ext).
  { destruct Hdir as [-> | [d ->]].
    - exact (basename_plain _ Hfile).
    - rewrite append_assoc. exact (basename_after_slash d _ Hfile). }
  rewrite Hbase, (splitext_root_ext name ext Hname Hext Hdot Hother).
  destruct (String.eqb_spec (dir +:+ name +:+ "." +:+ ext) "") as [Hempty|_];
    [|reflexivity].
  apply (f_equal String.length) in Hempty. rewrite !length_app in Hempty.
  cbn [String.length] in Hempty. lia.
Qed.

Lemma title_from_file_name_witness :
  get_title "" ("/x/" +:+ "song.tar" +:+ "." +:+ "mp3") = "song.tar".
Proof.
  apply (title_from_file_name "/x/" "song.tar" "mp3");
    [right; exists "/x"; reflexivity | reflexivity..].
Defined.
